(** * Credential dApp: verification portal and institution dashboard

    A shallow embedding of the React components that carry the
    credential lifecycle of the application:

    - [VerificationPortal] (the employer-facing lookup with its free
      verification quota),
    - [InstitutionDashboard] (the issuance form and its paywall), and
    - [StudentWallet] (the loading of a student's credentials and
      their history).

    The components are event handlers over React state that [await]
    helpers living in [utils/blockchain], [utils/ipfs], [utils/supabase]
    and [utils/subscriptions].  Those helpers are outside the verified
    sources, so every handler is embedded as a program that *asks* for
    an external call and continues with whatever the call answers; all
    general theorems quantify over the answers. *)

From Stdlib Require Import ZArith List String Ascii Bool Lia DecimalString.
Import ListNotations.

Set Implicit Arguments.

Open Scope string_scope.
Open Scope Z_scope.

(* ================================================================== *)
(** ** JavaScript values *)

Module JS.

(** A [string | null] value in a boolean position: [null] and the
    empty string are falsy. *)
Definition truthy (v : option string) : bool :=
  match v with
  | Some s => negb (s =? "")%string
  | None => false
  end.

(** [a || b] where [a : string | undefined] and [b : string]. *)
Definition or_else (a : option string) (b : string) : string :=
  if truthy a then match a with Some s => s | None => b end else b.

(** White space and line terminators of ECMAScript among the code
    units below 256 (a string is read as a sequence of such code
    units): TAB, LF, VT, FF, CR, SP and NBSP. *)
Definition isWhiteSpace (c : ascii) : bool :=
  let n := nat_of_ascii c in
  ((9 <=? n) && (n <=? 13) || (n =? 32) || (n =? 160))%nat.

Fixpoint trimStart (s : string) : string :=
  match s with
  | EmptyString => EmptyString
  | String c r => if isWhiteSpace c then trimStart r else s
  end.

Fixpoint trimEnd (s : string) : string :=
  match s with
  | EmptyString => EmptyString
  | String c r =>
      let r' := trimEnd r in
      if isWhiteSpace c && (r' =? "")%string then EmptyString
      else String c r'
  end.

(** [s.trim()] *)
Definition trim (s : string) : string := trimEnd (trimStart s).

(** [!s] for a string. *)
Definition not (s : string) : bool := (s =? "")%string.

Definition isHexDigit (c : ascii) : bool :=
  let n := nat_of_ascii c in
  ((48 <=? n) && (n <=? 57)          (* 0-9 *)
   || (65 <=? n) && (n <=? 70)       (* A-F *)
   || (97 <=? n) && (n <=? 102))%nat (* a-f *).

Fixpoint all (p : ascii -> bool) (s : string) : bool :=
  match s with
  | EmptyString => true
  | String c r => p c && all p r
  end.

End JS.

(* ================================================================== *)
(** ** Data carried by the helpers *)

(** [Credential] of [types/credential], with the fields the components
    read. *)
Record Credential := {
  cr_tokenId : string;
  cr_student : string;
  cr_institution : string;
  cr_degree : string;
  cr_issueDate : Z;
  cr_ipfsHash : string;
  cr_revoked : bool
}.

(** The browser [File] picked in the issuance form. *)
Record File := { file_name : string; file_bytes : list ascii }.

(** What [issueCredential] resolves to. *)
Record IssueResult := { ir_tokenId : string; ir_txHash : string }.

(** What [getInstitutionStats] resolves to. *)
Record Stats := { totalIssued : Z; totalRevoked : Z; recentIssued : Z }.

(** What [checkUserSubscription] resolves to (the field the components
    destructure). *)
Record Subscription := { sub_hasAccess : bool }.

Inductive UserType := employer | institution.

(** Modelled from the spec: the [CredentialRecord] rows of the off-chain
    index ([utils/supabase]), whose declaration is not among the
    sources; the components read [id], [token_id] and [degree], and the
    spec has the record mirror the credential, [revoked] included. *)
Record CredentialRecord := {
  rec_id : string;
  rec_token_id : string;
  rec_degree : string;
  rec_revoked : bool
}.

(** The outcome of an awaited promise: a value, or a thrown [Error]
    with its [message]. *)
Inductive Result (X : Type) : Type :=
| Resolved (x : X)
| Rejected (message : string).
Arguments Rejected {X} message.

(* ================================================================== *)
(** ** External calls *)

(** One constructor per imported helper the handlers await, indexed by
    the type the promise resolves to. *)
Inductive Ext : Type -> Type :=
| verifyCredential (token : string) : Ext (option Credential)
| checkUserSubscription (address : string) (kind : UserType) : Ext Subscription
| eth_accounts : Ext (list string)
| connectWallet : Ext (option string)
| switchToSepolia : Ext unit
| uploadToIPFS (document : File) : Ext string
| issueCredential (studentAddress ipfsHash degree institutionName : string)
    : Ext IssueResult
| saveCredential (token studentAddress institutionName issuer degree ipfsHash : string)
    : Ext unit
| getInstitutionStats (address : string) : Ext Stats
| getCredentialsByStudent (address : string) : Ext (list CredentialRecord).

(** A call with its result type packed away, for logs. *)
Inductive Call : Type := called (X : Type) (e : Ext X).
Arguments called {X} e.

Definition isVerify (c : Call) : bool :=
  match c with called (verifyCredential _) => true | _ => false end.

Definition isEntitlementCheck (c : Call) : bool :=
  match c with called (checkUserSubscription _ _) => true | _ => false end.

Definition isMint (c : Call) : bool :=
  match c with called (issueCredential _ _ _ _) => true | _ => false end.

Definition isUpload (c : Call) : bool :=
  match c with called (uploadToIPFS _) => true | _ => false end.

Definition isIndexWrite (c : Call) : bool :=
  match c with called (saveCredential _ _ _ _ _ _) => true | _ => false end.

Definition count (p : Call -> bool) (log : list Call) : nat :=
  List.length (filter p log).

(* ================================================================== *)
(** ** Handlers as programs *)

Section Programs.

(** The React state of the component. *)
Variable S : Type.

(** An async handler: it queues state updates ([setX(...)]) and
    suspends at each [await]. *)
Inductive Prog (A : Type) : Type :=
| Ret (a : A)
| SetState (f : S -> S) (k : Prog A)
| Await (X : Type) (e : Ext X) (k : Result X -> Prog A).

Arguments Ret {A} a.
Arguments Await {A X} e k.

Fixpoint bind {A B} (p : Prog A) (q : A -> Prog B) : Prog B :=
  match p with
  | Ret a => q a
  | SetState f k => SetState f (bind k q)
  | Await e k => Await e (fun r => bind (k r) q)
  end.

Definition set (f : S -> S) : Prog unit := SetState f (Ret tt).

Definition await {X} (e : Ext X) : Prog (Result X) := Await e (fun r => Ret r).

(** *** Running one handler to completion

    The outside world has a state [W] of its own and answers each
    call from it. *)
Section Run.
Variable W : Type.
Definition Env := forall X, Ext X -> W -> Result X * W.
Variable env : Env.

(** What a run leaves behind. *)
Record Outcome (A : Type) := {
  value : A;
  state : S;
  world : W;
  calls : list Call
}.

Fixpoint run {A} (p : Prog A) (st : S) (w : W) : Outcome A :=
  match p with
  | Ret a => {| value := a; state := st; world := w; calls := [] |}
  | SetState f k => run k (f st) w
  | Await e k =>
      let (r, w') := env e w in
      let o := run (k r) st w' in
      {| value := value o; state := state o; world := world o;
         calls := called e :: calls o |}
  end.

(** A handler closes over the state of the render it was created
    in; when nothing else is in flight that is the current state. *)
Definition invoke {A} (h : S -> Prog A) (st : S) (w : W) : Outcome A :=
  run (h st) st w.

End Run.

End Programs.

Arguments Ret {S A} a.
Arguments SetState {S A} f k.
Arguments Await {S A X} e k.
Arguments set {S} f.
Arguments await {S X} e.

Declare Scope prog_scope.
Delimit Scope prog_scope with prog.
Notation "x <- p ;; q" := (bind p (fun x => q))
  (at level 61, p at next level, right associativity) : prog_scope.
Notation "p ;; q" := (bind p (fun _ => q))
  (at level 61, right associativity) : prog_scope.

(** Code that may throw: the body of a [try] block computes a
    [Result]; a rejected [await] or a [throw] skips what follows. *)
Definition bindR {S A B} (p : Prog S (Result A)) (q : A -> Prog S (Result B))
  : Prog S (Result B) :=
  bind p (fun r =>
    match r with
    | Resolved a => q a
    | Rejected m => Ret (Rejected m)
    end).

Definition throw {S A} (message : string) : Prog S (Result A) :=
  Ret (Rejected message).

Definition ok {S} : Prog S (Result unit) := Ret (Resolved tt).

(** A statement that cannot throw, inside a [try] block. *)
Definition lift {S A} (p : Prog S A) : Prog S (Result A) :=
  bind p (fun a => Ret (Resolved a)).

Notation "x <-? p ;; q" := (bindR p (fun x => q))
  (at level 61, p at next level, right associativity) : prog_scope.
Notation "p ;;? q" := (bindR p (fun _ => q))
  (at level 61, right associativity) : prog_scope.

(** [try { body } catch (err) { handler(err.message) } finally { fin }] *)
Definition try_catch_finally {S}
    (body : Prog S (Result unit)) (handler : string -> Prog S unit)
    (fin : Prog S unit) : Prog S unit :=
  (r <- body ;;
   match r with
   | Resolved _ => Ret tt
   | Rejected m => handler m
   end ;;
   fin)%prog.

(* ================================================================== *)
(** ** Overlapping handlers

    JavaScript runs a handler without interruption up to its next
    [await]; there it parks the rest of the handler until the promise
    settles, and other events are served meanwhile.  A page is
    therefore a current state, the promises in flight, and the world. *)

Section Page.

Variables (S W : Type).
Variable env : Env W.

(** The state of a fresh mount ([useState] defaults), and the
    [useEffect] hooks with dependencies: given the state before and
    after a step, the handlers to start. *)
Variable initial : S.
Variable effects : S -> S -> list (S -> Prog S unit).

(** A parked handler: the call it waits for and its continuation. *)
Inductive Task : Type :=
| parked (X : Type) (e : Ext X) (k : Result X -> Prog S unit).

Record Page := {
  current : S;
  outside : W;
  pending : list Task;
  issued : list Call
}.

(** Run a handler up to its next [await]. *)
Fixpoint advance (p : Prog S unit) (pg : Page) : Page :=
  match p with
  | Ret _ => pg
  | SetState f k =>
      advance k {| current := f (current pg); outside := outside pg;
                   pending := pending pg; issued := issued pg |}
  | Await e k =>
      {| current := current pg; outside := outside pg;
         pending := pending pg ++ [parked e k];
         issued := issued pg ++ [called e] |}
  end.

(** Start handlers one after the other, all closed over the same
    render [closure]. *)
Fixpoint start (hs : list (S -> Prog S unit)) (closure : S) (pg : Page) : Page :=
  match hs with
  | [] => pg
  | h :: hs' => start hs' closure (advance (h closure) pg)
  end.

(** After a step React renders and runs the hooks whose dependencies
    changed, closed over the new render. *)
Definition rerender (before : S) (pg : Page) : Page :=
  start (effects before (current pg)) (current pg) pg.

Fixpoint remove (i : nat) (ts : list Task) : list Task :=
  match ts, i with
  | [], _ => []
  | _ :: ts', O => ts'
  | t :: ts', Datatypes.S j => t :: remove j ts'
  end.

Inductive Action : Type :=
| Load (mount : list (S -> Prog S unit))  (* the page is (re)loaded *)
| Fire (h : S -> Prog S unit)             (* a UI event calls a handler *)
| Settle (i : nat).                       (* the i-th promise in flight settles *)

Definition step (a : Action) (pg : Page) : Page :=
  match a with
  | Load mount =>
      rerender initial
        (start mount initial
           {| current := initial; outside := outside pg;
              pending := []; issued := issued pg |})
  | Fire h =>
      rerender (current pg) (advance (h (current pg)) pg)
  | Settle i =>
      match nth_error (pending pg) i with
      | None => pg
      | Some (parked e k) =>
          let (r, w') := env e (outside pg) in
          rerender (current pg)
            (advance (k r)
               {| current := current pg; outside := w';
                  pending := remove i (pending pg); issued := issued pg |})
      end
  end.

Definition steps (acts : list Action) (pg : Page) : Page :=
  fold_left (fun pg a => step a pg) acts pg.

Definition fresh (w : W) : Page :=
  {| current := initial; outside := w; pending := []; issued := [] |}.

End Page.

Arguments parked {S X} e k.
Arguments Load {S} mount.
Arguments Fire {S} h.
Arguments Settle {S} i.

(* ================================================================== *)
(** ** The verification portal *)

Module VerificationPortal.

Local Open Scope prog_scope.

(** The [useState] cells of the component.  The count is a JavaScript
    number that only ever moves by [prev + 1] from 0, which is exact
    far beyond any count a page can reach; it is kept as an integer. *)
Record State := {
  tokenId : string;
  credential : option Credential;
  loading : bool;
  error : option string;
  searched : bool;
  walletAddress : option string;
  hasAccess : bool;
  checkingAccess : bool;
  showPricing : bool;
  verificationCount : Z
}.

Definition initialState : State := {|
  tokenId := "";
  credential := None;
  loading := false;
  error := None;
  searched := false;
  walletAddress := None;
  hasAccess := false;
  checkingAccess := false;
  showPricing := false;
  verificationCount := 0
|}.

Definition setTokenId (v : string) (s : State) : State :=
  {| tokenId := v; credential := credential s; loading := loading s;
     error := error s; searched := searched s;
     walletAddress := walletAddress s; hasAccess := hasAccess s;
     checkingAccess := checkingAccess s; showPricing := showPricing s;
     verificationCount := verificationCount s |}.

Definition setCredential (v : option Credential) (s : State) : State :=
  {| tokenId := tokenId s; credential := v; loading := loading s;
     error := error s; searched := searched s;
     walletAddress := walletAddress s; hasAccess := hasAccess s;
     checkingAccess := checkingAccess s; showPricing := showPricing s;
     verificationCount := verificationCount s |}.

Definition setLoading (v : bool) (s : State) : State :=
  {| tokenId := tokenId s; credential := credential s; loading := v;
     error := error s; searched := searched s;
     walletAddress := walletAddress s; hasAccess := hasAccess s;
     checkingAccess := checkingAccess s; showPricing := showPricing s;
     verificationCount := verificationCount s |}.

Definition setError (v : option string) (s : State) : State :=
  {| tokenId := tokenId s; credential := credential s; loading := loading s;
     error := v; searched := searched s;
     walletAddress := walletAddress s; hasAccess := hasAccess s;
     checkingAccess := checkingAccess s; showPricing := showPricing s;
     verificationCount := verificationCount s |}.

Definition setSearched (v : bool) (s : State) : State :=
  {| tokenId := tokenId s; credential := credential s; loading := loading s;
     error := error s; searched := v;
     walletAddress := walletAddress s; hasAccess := hasAccess s;
     checkingAccess := checkingAccess s; showPricing := showPricing s;
     verificationCount := verificationCount s |}.

Definition setWalletAddress (v : option string) (s : State) : State :=
  {| tokenId := tokenId s; credential := credential s; loading := loading s;
     error := error s; searched := searched s;
     walletAddress := v; hasAccess := hasAccess s;
     checkingAccess := checkingAccess s; showPricing := showPricing s;
     verificationCount := verificationCount s |}.

Definition setHasAccess (v : bool) (s : State) : State :=
  {| tokenId := tokenId s; credential := credential s; loading := loading s;
     error := error s; searched := searched s;
     walletAddress := walletAddress s; hasAccess := v;
     checkingAccess := checkingAccess s; showPricing := showPricing s;
     verificationCount := verificationCount s |}.

Definition setCheckingAccess (v : bool) (s : State) : State :=
  {| tokenId := tokenId s; credential := credential s; loading := loading s;
     error := error s; searched := searched s;
     walletAddress := walletAddress s; hasAccess := hasAccess s;
     checkingAccess := v; showPricing := showPricing s;
     verificationCount := verificationCount s |}.

Definition setShowPricing (v : bool) (s : State) : State :=
  {| tokenId := tokenId s; credential := credential s; loading := loading s;
     error := error s; searched := searched s;
     walletAddress := walletAddress s; hasAccess := hasAccess s;
     checkingAccess := checkingAccess s; showPricing := v;
     verificationCount := verificationCount s |}.

(** [setVerificationCount] takes an updater of the previous value. *)
Definition setVerificationCount (f : Z -> Z) (s : State) : State :=
  {| tokenId := tokenId s; credential := credential s; loading := loading s;
     error := error s; searched := searched s;
     walletAddress := walletAddress s; hasAccess := hasAccess s;
     checkingAccess := checkingAccess s; showPricing := showPricing s;
     verificationCount := f (verificationCount s) |}.

Definition enterTokenId : string := "Please enter a token ID".
Definition limitReached : string :=
  "Verification limit reached. Please subscribe to continue.".
Definition notFound : string := "Credential not found or invalid token ID".
Definition verifyFailed : string := "Failed to verify credential".

(** [walletAddress && !hasAccess] as the closure sees it. *)
Definition metered (c : State) : bool :=
  JS.truthy (walletAddress c) && negb (hasAccess c).

(** [checkAccess]: asks the subscription helper and stores the answer
    in [hasAccess].  An exception of the helper is not caught. *)
Definition checkAccess (c : State) : Prog State unit :=
  match walletAddress c with
  | None => Ret tt
  | Some address =>
      if JS.not address then Ret tt
      else
        set (setCheckingAccess true) ;;
        r <- await (checkUserSubscription address employer) ;;
        match r with
        | Resolved sub =>
            set (setHasAccess (sub_hasAccess sub)) ;;
            set (setCheckingAccess false)
        | Rejected _ => Ret tt
        end
  end.

(** [handleVerify(id?)] as created by a render with state [c]. *)
Definition handleVerify (id : option string) (c : State) : Prog State unit :=
  let idToVerify := JS.or_else id (tokenId c) in
  if JS.not (JS.trim idToVerify) then
    set (setError (Some enterTokenId))
  else if metered c && (3 <=? verificationCount c) then
    set (setError (Some limitReached)) ;;
    set (setShowPricing true)
  else
    set (setLoading true) ;;
    set (setError None) ;;
    set (setCredential None) ;;
    set (setSearched true) ;;
    try_catch_finally
      (result <-? await (verifyCredential idToVerify) ;;
       match result with
       | Some cred =>
           lift (set (setCredential (Some cred)) ;;
                 if metered c
                 then set (setVerificationCount (fun prev => prev + 1))
                 else Ret tt)
       | None => lift (set (setError (Some notFound)))
       end)
      (fun message => set (setError (Some (JS.or_else (Some message) verifyFailed))))
      (set (setLoading false)).

(** [checkWalletConnection]; [ethereum] tells whether the page has a
    [window.ethereum] provider. *)
Definition checkWalletConnection (ethereum : bool) (c : State) : Prog State unit :=
  if ethereum then
    r <- await eth_accounts ;;
    match r with
    | Resolved (account :: _) => set (setWalletAddress (Some account))
    | Resolved [] => Ret tt
    | Rejected _ => Ret tt   (* console.error *)
    end
  else Ret tt.

(** [handleConnectWallet] *)
Definition handleConnectWallet (c : State) : Prog State unit :=
  r <- await connectWallet ;;
  match r with
  | Resolved address =>
      if JS.truthy address then set (setWalletAddress address) else Ret tt
  | Rejected _ => Ret tt
  end.

(** The mount effect ([useEffect(..., [])]): a [?verify=] parameter
    of the URL is looked up at once, then the wallet is probed.
    Neither call is awaited, so both are started from the first
    render's closure. *)
Definition mountEffect (verifyParam : option string) (ethereum : bool)
  : list (State -> Prog State unit) :=
  [ (fun c =>
       match verifyParam with
       | Some p =>
           if JS.not p then Ret tt
           else set (setTokenId p) ;; handleVerify (Some p) c
       | None => Ret tt
       end);
    checkWalletConnection ethereum ].

Definition sameAddress (a b : option string) : bool :=
  match a, b with
  | None, None => true
  | Some x, Some y => (x =? y)%string
  | _, _ => false
  end.

(** The effect on [[walletAddress]]: when the address changes,
    [checkAccess] runs from the new render (and returns at once on a
    falsy address). *)
Definition walletEffect (before after : State) : list (State -> Prog State unit) :=
  if sameAddress (walletAddress before) (walletAddress after) then []
  else [checkAccess].

(** The [onSuccess] callback of the pricing modal. *)
Definition onPricingSuccess (c : State) : Prog State unit :=
  set (setShowPricing false) ;; checkAccess c.

End VerificationPortal.

(* ================================================================== *)
(** ** The institution dashboard *)

Module InstitutionDashboard.

Local Open Scope prog_scope.

Inductive Tab := issue | register | students.

(** [IssuanceFormData] *)
Record FormData := {
  studentName : string;
  studentAddress : string;
  degree : string;
  institutionName : string;   (* the [institution] field *)
  graduationYear : string;
  document : option File
}.

Definition emptyForm : FormData := {|
  studentName := ""; studentAddress := ""; degree := "";
  institutionName := ""; graduationYear := ""; document := None
|}.

Record State := {
  activeTab : Tab;
  formData : FormData;
  loading : bool;
  success : option IssueResult;
  error : option string;
  walletAddress : option string;
  stats : Stats;
  hasAccess : bool;
  checkingAccess : bool;
  showPricing : bool
}.

Definition initialState : State := {|
  activeTab := issue;
  formData := emptyForm;
  loading := false;
  success := None;
  error := None;
  walletAddress := None;
  stats := {| totalIssued := 0; totalRevoked := 0; recentIssued := 0 |};
  hasAccess := false;
  checkingAccess := true;
  showPricing := false
|}.

Definition setFormData (v : FormData) (s : State) : State :=
  {| activeTab := activeTab s; formData := v; loading := loading s;
     success := success s; error := error s;
     walletAddress := walletAddress s; stats := stats s;
     hasAccess := hasAccess s; checkingAccess := checkingAccess s;
     showPricing := showPricing s |}.

Definition setLoading (v : bool) (s : State) : State :=
  {| activeTab := activeTab s; formData := formData s; loading := v;
     success := success s; error := error s;
     walletAddress := walletAddress s; stats := stats s;
     hasAccess := hasAccess s; checkingAccess := checkingAccess s;
     showPricing := showPricing s |}.

Definition setSuccess (v : option IssueResult) (s : State) : State :=
  {| activeTab := activeTab s; formData := formData s; loading := loading s;
     success := v; error := error s;
     walletAddress := walletAddress s; stats := stats s;
     hasAccess := hasAccess s; checkingAccess := checkingAccess s;
     showPricing := showPricing s |}.

Definition setError (v : option string) (s : State) : State :=
  {| activeTab := activeTab s; formData := formData s; loading := loading s;
     success := success s; error := v;
     walletAddress := walletAddress s; stats := stats s;
     hasAccess := hasAccess s; checkingAccess := checkingAccess s;
     showPricing := showPricing s |}.

Definition setWalletAddress (v : option string) (s : State) : State :=
  {| activeTab := activeTab s; formData := formData s; loading := loading s;
     success := success s; error := error s;
     walletAddress := v; stats := stats s;
     hasAccess := hasAccess s; checkingAccess := checkingAccess s;
     showPricing := showPricing s |}.

Definition setStats (v : Stats) (s : State) : State :=
  {| activeTab := activeTab s; formData := formData s; loading := loading s;
     success := success s; error := error s;
     walletAddress := walletAddress s; stats := v;
     hasAccess := hasAccess s; checkingAccess := checkingAccess s;
     showPricing := showPricing s |}.

Definition setHasAccess (v : bool) (s : State) : State :=
  {| activeTab := activeTab s; formData := formData s; loading := loading s;
     success := success s; error := error s;
     walletAddress := walletAddress s; stats := stats s;
     hasAccess := v; checkingAccess := checkingAccess s;
     showPricing := showPricing s |}.

Definition setCheckingAccess (v : bool) (s : State) : State :=
  {| activeTab := activeTab s; formData := formData s; loading := loading s;
     success := success s; error := error s;
     walletAddress := walletAddress s; stats := stats s;
     hasAccess := hasAccess s; checkingAccess := v;
     showPricing := showPricing s |}.

Definition uploadDocument : string := "Please upload a document".
Definition invalidAddress : string := "Invalid Ethereum address".
Definition issueFailed : string := "Failed to issue credential".

(** [s.match(/^0x[a-fA-F0-9]{40}$/)] is not [null]. *)
Definition matchesAddress (s : string) : bool :=
  match s with
  | String "0" (String "x" digits) =>
      (String.length digits =? 40)%nat && JS.all JS.isHexDigit digits
  | _ => false
  end.

(** The template literal [`${degree} (${graduationYear})`]. *)
Definition degreeLabel (f : FormData) : string :=
  degree f ++ " (" ++ graduationYear f ++ ")".

(** The form is rendered once the access check is over, and only to
    a subscriber (or when no wallet is connected). *)
Definition formShown (s : State) : bool :=
  negb (checkingAccess s)
  && negb (negb (hasAccess s) && JS.truthy (walletAddress s)).

(** [loadStats], awaited inside [handleSubmit]'s [try] block. *)
Definition loadStats (c : State) : Prog State (Result unit) :=
  match walletAddress c with
  | None => ok
  | Some address =>
      if JS.not address then ok
      else
        institutionStats <-? await (getInstitutionStats address) ;;
        lift (set (setStats institutionStats))
  end.

(** [handleFileChange] with the first file of the input, if any. *)
Definition handleFileChange (file : option File) (c : State) : Prog State unit :=
  match file with
  | Some f =>
      set (setFormData
             {| studentName := studentName (formData c);
                studentAddress := studentAddress (formData c);
                degree := degree (formData c);
                institutionName := institutionName (formData c);
                graduationYear := graduationYear (formData c);
                document := Some f |})
  | None => Ret tt
  end.

(** [handleSubmit] as created by a render with state [c].  The last
    argument of [saveCredential], [new Date()], is the time of the
    call and is left to the helper. *)
Definition handleSubmit (c : State) : Prog State unit :=
  let f := formData c in
  set (setLoading true) ;;
  set (setSuccess None) ;;
  set (setError None) ;;
  try_catch_finally
    (match document f with
     | None => throw uploadDocument
     | Some doc =>
         if negb (matchesAddress (studentAddress f)) then throw invalidAddress
         else
           ipfsHash <-? await (uploadToIPFS doc) ;;
           result <-? await (issueCredential (studentAddress f) ipfsHash
                               (degreeLabel f) (institutionName f)) ;;
           match walletAddress c with
           | Some wallet =>
               if JS.not wallet then ok
               else
                 await (saveCredential (ir_tokenId result) (studentAddress f)
                          (institutionName f) wallet (degreeLabel f) ipfsHash) ;;?
                 loadStats c
           | None => ok
           end ;;?
           lift (set (setSuccess (Some result)) ;;
                 set (setFormData emptyForm))
     end)
    (fun message => set (setError (Some (JS.or_else (Some message) issueFailed))))
    (set (setLoading false)).

End InstitutionDashboard.

(* ================================================================== *)
(** ** What the handlers of a page keep true *)

Section Keeps.

Variables (S W : Type).

(** Every state update of the program relates the state before to
    the state after by [R], whatever the awaited calls answer. *)
Fixpoint Keeps (R : S -> S -> Prop) (p : Prog S unit) : Prop :=
  match p with
  | Ret _ => True
  | SetState f k => (forall s, R s (f s)) /\ Keeps R k
  | Await e k => forall r, Keeps R (k r)
  end.

(** The same of the handlers parked on a page. *)
Definition Parked (R : S -> S -> Prop) (ts : list (Task S)) : Prop :=
  Forall (fun t => match t with parked _ k => forall r, Keeps R (k r) end) ts.

(** A page whose state is [R]-after [s] and whose parked handlers
    keep [R]. *)
Definition Sound (R : S -> S -> Prop) (s : S) (pg : Page S W) : Prop :=
  R s (current pg) /\ Parked R (pending pg).

End Keeps.

(* ================================================================== *)
(** ** Sessions of the verification portal *)

Module PortalSession.

Import VerificationPortal.
Local Open Scope prog_scope.

(** What the user can do on the page.  The Verify button is disabled
    while a lookup is loading; the Enter key in the input is not, and
    both call [handleVerify()]. *)
Inductive Event :=
| typeTokenId (s : string)   (* onChange of the input *)
| pressVerify                (* the button, or Enter: handleVerify() *)
| pressConnect               (* handleConnectWallet *)
| openPricing
| closePricing
| pricingSuccess.

Definition handler (e : Event) : State -> Prog State unit :=
  match e with
  | typeTokenId s => fun _ => set (setTokenId s)
  | pressVerify => handleVerify None
  | pressConnect => handleConnectWallet
  | openPricing => fun _ => set (setShowPricing true)
  | closePricing => fun _ => set (setShowPricing false)
  | pricingSuccess => onPricingSuccess
  end.

(** A step of a mounted page, and the inputs of a session. *)
Inductive Move := ui (e : Event) | settled (i : nat).

Inductive Input :=
| reload (verifyParam : option string) (ethereum : bool)
| during (m : Move).

Definition moveAction (m : Move) : Action State :=
  match m with
  | ui e => Fire (handler e)
  | settled i => Settle i
  end.

Definition action (i : Input) : Action State :=
  match i with
  | reload verifyParam ethereum => Load (mountEffect verifyParam ethereum)
  | during m => moveAction m
  end.

Section Play.
Variable W : Type.
Variable env : Env W.

Definition portalStep : Action State -> Page State W -> Page State W :=
  step env initialState walletEffect.

Definition play (inputs : list Input) (w : W) : Page State W :=
  steps env initialState walletEffect (map action inputs)
    (fresh initialState w).

(** A lookup with nothing else in flight: the user types [token]
    and presses Verify. *)
Definition lookup (token : string) (st : State) (w : W) : Outcome State W unit :=
  invoke env (handleVerify None) (setTokenId token st) w.

(** Lookups one after the other, each paired with its token. *)
Fixpoint lookups (tokens : list string) (st : State) (w : W)
  : list (string * Outcome State W unit) :=
  match tokens with
  | [] => []
  | t :: rest =>
      let o := lookup t st w in
      (t, o) :: lookups rest (state o) (world o)
  end.

(** The helper answers a lookup of [token] with a credential,
    whatever the state of the world. *)
Definition known (token : string) : Prop :=
  forall w, exists c, fst (env (verifyCredential token) w) = Resolved (Some c).

(** The state and the world after lookups one after the other. *)
Fixpoint afterLookups (tokens : list string) (st : State) (w : W) : State * W :=
  match tokens with
  | [] => (st, w)
  | t :: rest =>
      let o := lookup t st w in
      afterLookups rest (state o) (world o)
  end.

(** From the worlds in [P] on, the ledger helper reports [token]
    as revoked: no call leaves [P], and in [P] the credential of
    [token] comes back with [revoked] set. *)
Definition revokedSince (P : W -> Prop) (token : string) : Prop :=
  (forall X (e : Ext X) w, P w -> P (snd (env e w)))
  /\ (forall w, P w -> exists c,
        fst (env (verifyCredential token) w) = Resolved (Some c)
        /\ cr_revoked c = true).

End Play.

(** The three ways through [handleVerify]. *)
Inductive Way := blank | overQuota | admitted.

Definition way (id : option string) (st : State) : Way :=
  if JS.not (JS.trim (JS.or_else id (tokenId st))) then blank
  else if metered st && (3 <=? verificationCount st) then overQuota
  else admitted.

(** The state a lookup starts from once it is let through. *)
Definition searching (st : State) : State :=
  setSearched true (setCredential None (setError None (setLoading true st))).

(** What the answer of the helper does to the state; [m] is
    [metered] of the closure. *)
Definition answered (m : bool) (r : Result (option Credential)) (st : State)
  : State :=
  match r with
  | Resolved (Some cred) =>
      let st1 := setCredential (Some cred) st in
      setLoading false
        (if m then setVerificationCount (fun prev => prev + 1) st1 else st1)
  | Resolved None => setLoading false (setError (Some notFound) st)
  | Rejected message =>
      setLoading false
        (setError (Some (JS.or_else (Some message) verifyFailed)) st)
  end.

(** The call showed a credential and no error. *)
Definition succeeded (st : State) : bool :=
  match error st, credential st with
  | None, Some _ => true
  | _, _ => false
  end.

(** The page shows a credential marked revoked, and no error. *)
Definition shownRevoked (st : State) : Prop :=
  error st = None
  /\ exists c, credential st = Some c /\ cr_revoked c = true.

(** What a lookup amounts to: whether a credential is shown without
    error, the count after it, and the calls it made. *)
Definition report (W : Type) (p : string * Outcome State W unit)
  : bool * Z * list Call :=
  (succeeded (state (snd p)), verificationCount (state (snd p)),
   calls (snd p)).

(** The call was refused for the quota. *)
Definition quotaExceeded (W : Type) (o : Outcome State W unit) : Prop :=
  error (state o) = Some limitReached /\ showPricing (state o) = true
  /\ calls o = [].

(** The call was refused at the door: no token, or no quota left. *)
Definition refused (W : Type) (o : Outcome State W unit) : Prop :=
  (error (state o) = Some enterTokenId /\ calls o = []) \/ quotaExceeded o.

(** A parked lookup of [token] that, when the ledger helper answers
    with a credential, shows it and adds one to the count. *)
Definition Counting (W : Type) (token : string) (task : Task State) : Prop :=
  exists k,
    task = parked (verifyCredential token) k
    /\ forall cred (pg : Page State W),
         advance (k (Resolved (Some cred))) pg
         = {| current := answered true (Resolved (Some cred)) (current pg);
              outside := outside pg; pending := pending pg;
              issued := issued pg |}.

(** Enter is pressed [n] times in a row, then the [n] lookups are
    answered. *)
Definition enterPresses (n : nat) : list Move :=
  repeat (ui pressVerify) n ++ repeat (settled 0) n.

Definition noLower (s s' : State) : Prop :=
  verificationCount s <= verificationCount s'.

Definition sameCount (s s' : State) : Prop :=
  verificationCount s' = verificationCount s.

End PortalSession.

(* ================================================================== *)
(** ** A concrete world to run the components in *)

Module Demo.

(** A ledger that numbers its mints, an index that may be down, a
    subscription that may be active, and the wallets of the browser. *)
Record World := {
  subscribed : bool;
  accounts : list string;
  revokedTokens : list string;
  minted : nat;
  indexUp : bool
}.

Definition decimal (n : nat) : string :=
  DecimalString.NilEmpty.string_of_uint (Nat.to_uint n).

Definition diploma (token : string) (revoked : bool) : Credential := {|
  cr_tokenId := token;
  cr_student := "0x00000000000000000000000000000000000000a1";
  cr_institution := "I1";
  cr_degree := "BSc (2024)";
  cr_issueDate := 1717200000;
  cr_ipfsHash := "QmDiploma";
  cr_revoked := revoked
|}.

Definition mem (s : string) (l : list string) : bool :=
  existsb (String.eqb s) l.

Definition afterMint (w : World) : World := {|
  subscribed := subscribed w; accounts := accounts w;
  revokedTokens := revokedTokens w; minted := Datatypes.S (minted w);
  indexUp := indexUp w
|}.

(** Tokens 1 to 5 exist on the ledger. *)
Definition env : Env World := fun X e =>
  match e in Ext T return World -> Result T * World with
  | verifyCredential token => fun w =>
      (Resolved
         (if mem token ["1"; "2"; "3"; "4"; "5"]
          then Some (diploma token (mem token (revokedTokens w)))
          else None), w)
  | checkUserSubscription _ _ => fun w =>
      (Resolved {| sub_hasAccess := subscribed w |}, w)
  | eth_accounts => fun w => (Resolved (accounts w), w)
  | connectWallet => fun w => (Resolved (hd_error (accounts w)), w)
  | switchToSepolia => fun w => (Resolved tt, w)
  | uploadToIPFS doc => fun w =>
      (Resolved ("Qm" ++ string_of_list_ascii (file_bytes doc)), w)
  | issueCredential _ _ _ _ => fun w =>
      (Resolved {| ir_tokenId := decimal (Datatypes.S (minted w));
                   ir_txHash := "0xfeed" |}, afterMint w)
  | saveCredential _ _ _ _ _ _ => fun w =>
      (if indexUp w then Resolved tt else Rejected "index unavailable", w)
  | getInstitutionStats _ => fun w =>
      (Resolved {| totalIssued := Z.of_nat (minted w); totalRevoked := 0;
                   recentIssued := Z.of_nat (minted w) |}, w)
  | getCredentialsByStudent _ => fun w => (Resolved [], w)
  end.

Definition E1 : string := "0x00000000000000000000000000000000000000e1".
Definition S1 : string := "0x00000000000000000000000000000000000000a1".
Definition I1 : string := "0x00000000000000000000000000000000000000b1".

(** An employer with a wallet and no subscription. *)
Definition unsubscribed : World := {|
  subscribed := false; accounts := [E1]; revokedTokens := [];
  minted := 0; indexUp := true
|}.

Definition subscribedNow (w : World) : World := {|
  subscribed := true; accounts := accounts w;
  revokedTokens := revokedTokens w; minted := minted w;
  indexUp := indexUp w
|}.

(** The portal of that employer once the wallet is known and the
    access check has answered. *)
Definition identified : VerificationPortal.State :=
  VerificationPortal.setWalletAddress (Some E1) VerificationPortal.initialState.

End Demo.

(* ================================================================== *)
(** ** Sessions of the institution dashboard *)

Module DashboardSession.

Import InstitutionDashboard.

Section Submit.
Variable W : Type.
Variable env : Env W.

(** The institution fills the form with [f] and submits it. *)
Definition submit (f : FormData) (st : State) (w : W) : Outcome State W unit :=
  invoke env handleSubmit (setFormData f st) w.

(** The token the submission reported, if it reported success. *)
Definition issuedToken (o : Outcome State W unit) : option string :=
  option_map ir_tokenId (success (state o)).

End Submit.

(** The bytes of the document of the form; none when no file is
    picked. *)
Definition documentBytes (f : FormData) : list ascii :=
  match document f with
  | Some d => file_bytes d
  | None => []
  end.

End DashboardSession.

(* ================================================================== *)
(** ** The properties the specification asks for, as it words them

    Each is stated over the embedding above; the theorems further down
    settle which of them the components have. *)

Module Asked.

Import PortalSession.

Section Portal.
Import VerificationPortal.
Variable W : Type.
Variable env : Env W.

(** The quota counter is never lower after one more input, a page
    reload included. *)
Definition counterSurvives (history : list Input) (next : Input) (w : W) : Prop :=
  verificationCount (current (play env history w))
  <= verificationCount (current (play env (history ++ [next]) w)).

(** Two lookups in a row each ask the entitlement helper. *)
Definition checkedOnEachCall (t1 t2 : string) (st : State) (w : W) : Prop :=
  let o1 := lookup env t1 st w in
  let o2 := lookup env t2 (state o1) (world o1) in
  (1 <= count isEntitlementCheck (calls o1))%nat
  /\ (1 <= count isEntitlementCheck (calls o2))%nat.

(** A session that resolves a shared reference and a session that
    looks the same token up from the input leave the same count. *)
Definition sharedAsDirect (shared direct : list Input) (w : W) : Prop :=
  verificationCount (current (play env shared w))
  = verificationCount (current (play env direct w)).

(** However the lookups of a session overlap, at most three of
    them are counted and let through. *)
Definition quotaHolds (session : list Input) (w : W) : Prop :=
  verificationCount (current (play env session w)) <= 3
  /\ (count isVerify (issued (play env session w)) <= 3)%nat.

End Portal.

Section Dashboard.
Import InstitutionDashboard DashboardSession.
Variable W : Type.
Variable env : Env W.

(** Issuing the same form twice mints once and reports the same
    token both times. *)
Definition mintedOnce (f : FormData) (st : State) (w : W) : Prop :=
  let o1 := submit env f st w in
  let o2 := submit env f (state o1) (world o1) in
  count isMint (calls o1 ++ calls o2) = 1%nat
  /\ issuedToken o1 = issuedToken o2.

(** A mint that succeeds followed by an index write that fails is
    still reported as a success. *)
Definition indexFailureNotFatal (st : State) (w : W) : Prop :=
  forall doc wallet h w1 res w2 m w3,
    let f := formData st in
    document f = Some doc ->
    walletAddress st = Some wallet ->
    env (uploadToIPFS doc) w = (Resolved h, w1) ->
    env (issueCredential (studentAddress f) h (degreeLabel f)
           (institutionName f)) w1 = (Resolved res, w2) ->
    env (saveCredential (ir_tokenId res) (studentAddress f)
           (institutionName f) wallet (degreeLabel f) h) w2
      = (Rejected m, w3) ->
    let o := invoke env handleSubmit st w in
    success (state o) = Some res /\ error (state o) = None.

(** Malformed input: the student address is outside the grammar,
    or the document has no bytes. *)
Definition malformed (f : FormData) : Prop :=
  matchesAddress (studentAddress f) = false \/ documentBytes f = [].

(** Malformed input is refused before any helper is called. *)
Definition refusedUntouched (st : State) (w : W) : Prop :=
  malformed (formData st) ->
  let o := invoke env handleSubmit st w in
  calls o = [] /\ error (state o) <> None.

End Dashboard.

End Asked.

(* ================================================================== *)
(** ** Concrete sessions *)

Module Scenario.

Import PortalSession Demo.

(** The page is opened, the wallet probe answers, the access check
    answers. *)
Definition opened : list Input :=
  [reload None true; during (settled 0); during (settled 0)].

(** The user types a token, presses Verify and the lookup answers. *)
Definition verifyNow (token : string) : list Input :=
  [during (ui (typeTokenId token)); during (ui pressVerify);
   during (settled 0)].

(** Three lookups, one after the other. *)
Definition threeLookups : list Input :=
  opened ++ verifyNow "1" ++ verifyNow "2" ++ verifyNow "3".

(** Token 1 is typed and Enter is pressed four times before the
    first lookup answers; then the four lookups answer. *)
Definition fourAtOnce : list Input :=
  opened ++ during (ui (typeTokenId "1")) :: map during (enterPresses 4).

(** The page is opened through a share link to token 1: the lookup
    answers, then the wallet probe, then the access check. *)
Definition viaShareLink : list Input :=
  [reload (Some "1") true; during (settled 0); during (settled 0);
   during (settled 0)].

(** The page is opened without a link and token 1 is typed in. *)
Definition viaInput : list Input := opened ++ verifyNow "1".

Import InstitutionDashboard.

Definition scan : File := {| file_name := "diploma.pdf"; file_bytes := ["%"; "P"; "D"; "F"]%char |}.
Definition emptyScan : File := {| file_name := "empty.pdf"; file_bytes := [] |}.

Definition bsc (doc : option File) : FormData := {|
  studentName := "S1"; studentAddress := S1; degree := "BSc";
  institutionName := "I1"; graduationYear := "2024"; document := doc
|}.

(** The dashboard of a subscribed institution with its wallet
    connected. *)
Definition dashboard : InstitutionDashboard.State :=
  setCheckingAccess false
    (setHasAccess true (setWalletAddress (Some I1) initialState)).

Definition indexDown : World := {|
  subscribed := true; accounts := [I1]; revokedTokens := [];
  minted := 0; indexUp := false
|}.

Definition indexFine : World := {|
  subscribed := true; accounts := [I1]; revokedTokens := [];
  minted := 0; indexUp := true
|}.

End Scenario.


(* ================================================================== *)
(** ** The verification portal: what is rendered *)

Module PortalView.

Import VerificationPortal.




(** The number in the banner [Free verifications: {3 - verificationCount} / 3]. *)
Definition freeLeft (s : State) : Z := 3 - verificationCount s.

End PortalView.

(* ================================================================== *)
(** ** The institution dashboard as a page *)

Module DashboardPage.

Import InstitutionDashboard.
Local Open Scope prog_scope.

Definition setActiveTab (v : Tab) (s : State) : State :=
  {| activeTab := v; formData := formData s; loading := loading s;
     success := success s; error := error s;
     walletAddress := walletAddress s; stats := stats s;
     hasAccess := hasAccess s; checkingAccess := checkingAccess s;
     showPricing := showPricing s |}.

Definition setShowPricing (v : bool) (s : State) : State :=
  {| activeTab := activeTab s; formData := formData s; loading := loading s;
     success := success s; error := error s;
     walletAddress := walletAddress s; stats := stats s;
     hasAccess := hasAccess s; checkingAccess := checkingAccess s;
     showPricing := v |}.

(** [initWallet]: nothing is caught. *)
Definition initWallet (c : State) : Prog State unit :=
  r <- await connectWallet ;;
  match r with
  | Resolved address =>
      if JS.truthy address then
        set (setWalletAddress address) ;;
        await switchToSepolia ;;
        Ret tt
      else Ret tt
  | Rejected _ => Ret tt
  end.

(** [checkAccess] of the dashboard. *)
Definition checkAccess (c : State) : Prog State unit :=
  match walletAddress c with
  | None => Ret tt
  | Some address =>
      if JS.not address then Ret tt
      else
        set (setCheckingAccess true) ;;
        r <- await (checkUserSubscription address institution) ;;
        match r with
        | Resolved sub =>
            set (setHasAccess (sub_hasAccess sub)) ;;
            set (setCheckingAccess false)
        | Rejected _ => Ret tt
        end
  end.

(** [loadStats()] called without [await]: a rejection is nobody's. *)
Definition refreshStats (c : State) : Prog State unit :=
  loadStats c ;; Ret tt.

(** The mount effect. *)
Definition mountEffect : list (State -> Prog State unit) := [initWallet].

(** The effect on [[walletAddress]]:
    [if (walletAddress) { loadStats(); checkAccess(); }]. *)
Definition walletEffect (before after : State) : list (State -> Prog State unit) :=
  if VerificationPortal.sameAddress (walletAddress before) (walletAddress after)
  then []
  else [ (fun c => if JS.truthy (walletAddress c) then refreshStats c else Ret tt);
         (fun c => if JS.truthy (walletAddress c) then checkAccess c else Ret tt) ].

(** The text inputs of the form. *)
Inductive Field :=
| theStudentName | theStudentAddress | theInstitution | theDegree
| theGraduationYear.

(** [{ ...formData, [field]: value }] *)
Definition withField (field : Field) (value : string) (f : FormData) : FormData :=
  {| studentName := match field with theStudentName => value | _ => studentName f end;
     studentAddress :=
       match field with theStudentAddress => value | _ => studentAddress f end;
     degree := match field with theDegree => value | _ => degree f end;
     institutionName :=
       match field with theInstitution => value | _ => institutionName f end;
     graduationYear :=
       match field with theGraduationYear => value | _ => graduationYear f end;
     document := document f |}.

(** What the institution can do on the page. *)
Inductive Event :=
| typeField (field : Field) (value : string)
| pickFile (file : option File)
| pressSubmit
| switchTab (tab : Tab)
| openPricing
| closePricing
| pricingSuccess.

Definition handler (e : Event) : State -> Prog State unit :=
  match e with
  | typeField field value => fun c => set (setFormData (withField field value (formData c)))
  | pickFile file => handleFileChange file
  | pressSubmit => handleSubmit
  | switchTab tab => fun _ => set (setActiveTab tab)
  | openPricing => fun _ => set (setShowPricing true)
  | closePricing => fun _ => set (setShowPricing false)
  | pricingSuccess => fun c => set (setShowPricing false) ;; checkAccess c
  end.

Inductive Move := ui (e : Event) | settled (i : nat).

Inductive Input := reload | during (m : Move).

Definition action (i : Input) : Action State :=
  match i with
  | reload => Load mountEffect
  | during (ui e) => Fire (handler e)
  | during (settled i) => Settle i
  end.

Definition play (W : Type) (env : Env W) (inputs : list Input) (w : W)
  : Page State W :=
  steps env initialState walletEffect (map action inputs)
    (fresh initialState w).

(** What the component returns: the spinner while the access check is
    on, the paywall for a wallet without access, the form otherwise. *)
Inductive View := Spinner | Paywall | Form.

Definition view (s : State) : View :=
  if checkingAccess s then Spinner
  else if negb (hasAccess s) && JS.truthy (walletAddress s) then Paywall
  else Form.

(** A wallet is known. *)
Definition connected (s : State) : Prop := JS.truthy (walletAddress s) = true.

(** The spinner is up, or a wallet is known. *)
Definition covered (s : State) : Prop := checkingAccess s = true \/ connected s.

(** An update that keeps a known wallet known and a covered state
    covered. *)
Definition gentle (s s' : State) : Prop :=
  (connected s -> connected s') /\ (covered s -> covered s').

(** An update that, on a state with a known wallet, leaves a known
    wallet and a covered state. *)
Definition walleted (s s' : State) : Prop :=
  connected s -> connected s' /\ covered s'.

(** A program that is fine to run on state [s]. *)
Definition Fine (s : State) (p : Prog State unit) : Prop :=
  Keeps gentle p \/ (connected s /\ Keeps walleted p).

Definition TaskFine (s : State) (t : Task State) : Prop :=
  match t with parked _ k => forall r, Fine s (k r) end.

(** The invariant of the dashboard page. *)
Definition Steady (W : Type) (pg : Page State W) : Prop :=
  covered (current pg) /\ Forall (TaskFine (current pg)) (pending pg).

End DashboardPage.

(* ================================================================== *)
(** ** Reading a log of calls *)

(** The rows written to the index, as [saveCredential] was given
    them: token, student, institution, issuer, degree, hash. *)
Definition indexWrites (log : list Call)
  : list (string * string * string * string * string * string) :=
  flat_map (fun c =>
    match c with
    | called (saveCredential token student inst issuer degree hash) =>
        [(token, student, inst, issuer, degree, hash)]
    | _ => []
    end) log.

(** The mints sent to the ledger, as [issueCredential] was given
    them: student, hash, degree, institution. *)
Definition mintsSent (log : list Call)
  : list (string * string * string * string) :=
  flat_map (fun c =>
    match c with
    | called (issueCredential student hash degree inst) =>
        [(student, hash, degree, inst)]
    | _ => []
    end) log.

(* ================================================================== *)
(** ** The student wallet *)

Module StudentWallet.

Inductive Tab := credentialsTab | profileTab.

Record State := {
  activeTab : Tab;
  walletAddress : option string;
  credentials : list Credential;
  loading : bool;
  selectedCredential : option Credential;
  shareCredential : option CredentialRecord;
  viewAuditCredential : option string;
  dbCredentials : list CredentialRecord;
  view3D : bool
}.

Definition initialState : State := {|
  activeTab := credentialsTab;
  walletAddress := None;
  credentials := [];
  loading := false;
  selectedCredential := None;
  shareCredential := None;
  viewAuditCredential := None;
  dbCredentials := [];
  view3D := false
|}.

Definition setCredentials (v : list Credential) (s : State) : State :=
  {| activeTab := activeTab s; walletAddress := walletAddress s;
     credentials := v; loading := loading s;
     selectedCredential := selectedCredential s;
     shareCredential := shareCredential s;
     viewAuditCredential := viewAuditCredential s;
     dbCredentials := dbCredentials s; view3D := view3D s |}.

Definition setLoading (v : bool) (s : State) : State :=
  {| activeTab := activeTab s; walletAddress := walletAddress s;
     credentials := credentials s; loading := v;
     selectedCredential := selectedCredential s;
     shareCredential := shareCredential s;
     viewAuditCredential := viewAuditCredential s;
     dbCredentials := dbCredentials s; view3D := view3D s |}.

Definition setDbCredentials (v : list CredentialRecord) (s : State) : State :=
  {| activeTab := activeTab s; walletAddress := walletAddress s;
     credentials := credentials s; loading := loading s;
     selectedCredential := selectedCredential s;
     shareCredential := shareCredential s;
     viewAuditCredential := viewAuditCredential s;
     dbCredentials := v; view3D := view3D s |}.

Definition setViewAuditCredential (v : option string) (s : State) : State :=
  {| activeTab := activeTab s; walletAddress := walletAddress s;
     credentials := credentials s; loading := loading s;
     selectedCredential := selectedCredential s;
     shareCredential := shareCredential s;
     viewAuditCredential := v;
     dbCredentials := dbCredentials s; view3D := view3D s |}.

(** The wallet awaits its two helpers one after the other; each is
    taken as a function from the address to what its promise settles
    to: [getStudentCredentials] reads the ledger,
    [getCredentialsByStudent] the index. *)
Section Helpers.

Variable getStudentCredentials : string -> Result (list Credential).
Variable getCredentialsByStudent : string -> Result (list CredentialRecord).

(** [loadCredentials]: both reads sit in one [try]; the [catch] only
    logs. *)
Definition loadCredentials (address : string) (st : State) : State :=
  let st := setLoading true st in
  let st :=
    match getStudentCredentials address with
    | Resolved creds =>
        let st := setCredentials creds st in
        match getCredentialsByStudent address with
        | Resolved dbCreds => setDbCredentials dbCreds st
        | Rejected _ => st
        end
    | Rejected _ => st
    end in
  setLoading false st.

End Helpers.

(** The History button of a credential card. *)
Definition viewHistory (credential : Credential) (st : State) : State :=
  match find (fun c => (rec_token_id c =? cr_tokenId credential)%string)
             (dbCredentials st) with
  | Some dbCred => setViewAuditCredential (Some (rec_id dbCred)) st
  | None => st
  end.

End StudentWallet.

(* ================================================================== *)
(** ** More concrete worlds and pages *)

Module MoreDemo.

Import Demo.

(** The demo world with a statistics helper that throws. *)
Definition statsDown : Env World := fun X e =>
  match e in Ext T return World -> Result T * World with
  | getInstitutionStats _ => fun w => (Rejected "stats unavailable", w)
  | other => env other
  end.

(** The portal of E1 with the free lookups used up and the credential
    of token 1 on screen. *)
Definition usedUp : VerificationPortal.State :=
  VerificationPortal.setVerificationCount (fun _ => 3)
    (VerificationPortal.setCredential (Some (diploma "1" false)) identified).

(** A ledger read that answers and an index read that throws. *)
Definition ledgerOnly (address : string) : Result (list Credential) :=
  Resolved [diploma "1" false; diploma "2" true].

Definition indexBroken (address : string) : Result (list CredentialRecord) :=
  Rejected "index unavailable".

End MoreDemo.

(* ================================================================== *)
(** ** Lookups with what they started from *)

Module PortalTrace.

Import VerificationPortal PortalSession.

Section Trace.

Variable W : Type.
Variable env : Env W.

(** One lookup of a sequence: the token typed, the state and the
    world it started from, and what it left. *)
Record Traced := {
  asked : string;
  before : State;
  worldThen : W;
  after : Outcome State W unit
}.

Fixpoint traced (tokens : list string) (st : State) (w : W) : list Traced :=
  match tokens with
  | [] => []
  | t :: rest =>
      let o := lookup env t st w in
      {| asked := t; before := st; worldThen := w; after := o |}
      :: traced rest (state o) (world o)
  end.

(** The lookup passes the two tests at the door of [handleVerify]:
    the token is not blank and the quota is not used up. *)
Definition letThrough (l : Traced) : bool :=
  negb (JS.not (JS.trim (asked l)))
  && negb (metered (before l) && (3 <=? verificationCount (before l))).

(** The lookup returned the credential the ledger helper answered
    with, marked revoked, after asking the ledger helper and nothing
    else. *)
Definition returnsRevoked (l : Traced) : Prop :=
  error (state (after l)) = None
  /\ calls (after l) = [called (verifyCredential (asked l))]
  /\ exists c,
       fst (env (verifyCredential (asked l)) (worldThen l)) = Resolved (Some c)
       /\ credential (state (after l)) = Some c
       /\ cr_revoked c = true.

(** As the specification words it: once the subscription helper
    answers that the access of [address] is active, the next lookup
    is served and not counted. *)
Definition servedOnceOracleActive
    (address : string) (tokens : list string) (next : string)
    (st : State) (w w' : W) : Prop :=
  fst (env (checkUserSubscription address employer) w')
    = Resolved {| sub_hasAccess := true |} ->
  let st4 := fst (afterLookups env tokens st w) in
  let o := lookup env next st4 w' in
  succeeded (state o) = true
  /\ verificationCount (state o) = verificationCount st4.

(** As the specification words it: a lookup of a token the ledger
    helper reports as revoked returns the credential marked revoked. *)
Definition revocationReturned (token : string) (st : State) (w : W) : Prop :=
  (exists c, fst (env (verifyCredential token) w) = Resolved (Some c)
             /\ cr_revoked c = true) ->
  shownRevoked (state (lookup env token st w)).

End Trace.

(** The demo ledger once token 1 is revoked. *)
Definition tokenOneRevoked : Demo.World := {|
  Demo.subscribed := false; Demo.accounts := [Demo.E1];
  Demo.revokedTokens := ["1"]; Demo.minted := 0; Demo.indexUp := true
|}.

(** The portal of E1 after its three free lookups, of tokens 2, 3 and
    1, made before token 1 was revoked. *)
Definition afterThree : State :=
  fst (afterLookups Demo.env ["2"; "3"; "1"] Demo.identified Demo.unsubscribed).

End PortalTrace.
(* ================================================================== *)
(** ** Theory of the verification portal: one lookup *)

Unset Implicit Arguments.

Module PortalTheory.

Import VerificationPortal PortalSession.

Lemma or_else_none (b : string) : JS.or_else None b = b.
Proof. reflexivity. Qed.

Lemma or_else_typed (a : ascii) (s : string) (t : string) :
  JS.or_else (Some (String a s)) t = String a s.
Proof. reflexivity. Qed.

Lemma messages_differ :
  enterTokenId <> limitReached /\ notFound <> limitReached.
Proof. split; discriminate. Qed.

Section OneLookup.

Variable W : Type.
Variable env : Env W.

Lemma verify_blank id st w :
  way id st = blank ->
  invoke env (handleVerify id) st w
  = {| value := tt; state := setError (Some enterTokenId) st;
       world := w; calls := [] |}.
Proof.
  unfold way, invoke, handleVerify.
  destruct (JS.not _); [reflexivity|].
  destruct (metered st && _); discriminate.
Qed.

Lemma verify_overQuota id st w :
  way id st = overQuota ->
  invoke env (handleVerify id) st w
  = {| value := tt;
       state := setShowPricing true (setError (Some limitReached) st);
       world := w; calls := [] |}.
Proof.
  unfold way, invoke, handleVerify.
  destruct (JS.not _); [discriminate|].
  destruct (metered st && _); [reflexivity|discriminate].
Qed.

Lemma verify_admitted id st w :
  way id st = admitted ->
  invoke env (handleVerify id) st w
  = {| value := tt;
       state := answered (metered st)
                  (fst (env _ (verifyCredential (JS.or_else id (tokenId st))) w))
                  (searching st);
       world := snd (env _ (verifyCredential (JS.or_else id (tokenId st))) w);
       calls := [called (verifyCredential (JS.or_else id (tokenId st)))] |}.
Proof.
  unfold way, invoke, handleVerify.
  destruct (JS.not _); [discriminate|].
  destruct (metered st && _); [discriminate|]. intros _.
  cbn.
  destruct (env _ (verifyCredential (JS.or_else id (tokenId st))) w)
    as [[[cred|]|message] w']; cbn; try reflexivity.
  destruct (metered st); reflexivity.
Qed.

(** A lookup never touches the wallet address or the cached
    entitlement, and never lowers the count. *)
Lemma verify_frame id st w :
  let o := invoke env (handleVerify id) st w in
  walletAddress (state o) = walletAddress st
  /\ hasAccess (state o) = hasAccess st
  /\ verificationCount st <= verificationCount (state o).
Proof.
  destruct (way id st) eqn:Hw; cbv zeta;
    [ rewrite verify_blank | rewrite verify_overQuota
    | rewrite verify_admitted ]; try assumption; cbn;
    try (repeat split; lia).
  destruct (fst (env _ _ w)) as [[cred|]|message]; cbn;
    try (repeat split; lia).
  destruct (metered st); cbn; repeat split; lia.
Qed.

Lemma typed_way t st :
  way None (setTokenId t st)
  = if JS.not (JS.trim t) then blank
    else if metered st && (3 <=? verificationCount st) then overQuota
    else admitted.
Proof. reflexivity. Qed.

(** A metered caller below the limit, on a token the ledger knows:
    the credential is shown and the count goes up by one. *)
Lemma lookup_counted t st w :
  metered st = true -> verificationCount st < 3 ->
  JS.trim t <> "" -> known env t ->
  let o := lookup env t st w in
  succeeded (state o) = true
  /\ verificationCount (state o) = verificationCount st + 1
  /\ metered (state o) = true
  /\ calls o = [called (verifyCredential t)].
Proof.
  intros Hm Hc Ht Hk. unfold lookup. cbv zeta.
  rewrite verify_admitted.
  - cbn. destruct (Hk w) as [c Hc']. rewrite Hc'.
    unfold metered in *. cbn. rewrite Hm. cbn. auto.
  - rewrite typed_way. apply String.eqb_neq in Ht. unfold JS.not.
    rewrite Ht, Hm. cbn. destruct (3 <=? verificationCount st) eqn:E;
      [apply Z.leb_le in E; lia | reflexivity].
Qed.

(** A metered caller at the limit: refused, nothing asked of the
    ledger, nothing counted. *)
Lemma lookup_refused t st w :
  metered st = true -> 3 <= verificationCount st -> JS.trim t <> "" ->
  let o := lookup env t st w in
  quotaExceeded o
  /\ verificationCount (state o) = verificationCount st
  /\ metered (state o) = true
  /\ world o = w.
Proof.
  intros Hm Hc Ht. unfold lookup. cbv zeta.
  rewrite verify_overQuota.
  - unfold quotaExceeded, metered in *. cbn. auto.
  - rewrite typed_way. apply String.eqb_neq in Ht. unfold JS.not.
    rewrite Ht, Hm. cbn. apply Z.leb_le in Hc. rewrite Hc. reflexivity.
Qed.

(** A caller whose entitlement is cached as active: the credential
    is shown and the count is left alone. *)
Lemma lookup_entitled t st w :
  hasAccess st = true -> JS.trim t <> "" -> known env t ->
  let o := lookup env t st w in
  succeeded (state o) = true
  /\ verificationCount (state o) = verificationCount st
  /\ hasAccess (state o) = true
  /\ calls o = [called (verifyCredential t)].
Proof.
  intros Ha Ht Hk. unfold lookup. cbv zeta.
  assert (Hm : metered st = false).
  { unfold metered. rewrite Ha. apply andb_false_r. }
  rewrite verify_admitted.
  - cbn. destruct (Hk w) as [c Hc']. rewrite Hc'.
    unfold metered in *. cbn. rewrite Hm. cbn. auto.
  - rewrite typed_way. apply String.eqb_neq in Ht. unfold JS.not.
    rewrite Ht, Hm. reflexivity.
Qed.

Lemma lookups_entitled tokens : forall st w,
  hasAccess st = true ->
  (forall t, In t tokens -> JS.trim t <> "" /\ known env t) ->
  Forall (fun p => succeeded (state (snd p)) = true
                   /\ verificationCount (state (snd p)) = verificationCount st)
         (lookups env tokens st w).
Proof.
  induction tokens as [|t rest IH]; intros st w Ha Hall; cbn.
  - constructor.
  - destruct (Hall t (or_introl eq_refl)) as [Ht Hk].
    destruct (lookup_entitled t st w Ha Ht Hk) as (Hs & Hc & Ha' & _).
    constructor; [cbn; auto|].
    rewrite <- Hc. apply IH; [assumption|].
    intros t' Hin. apply Hall. right. assumption.
Qed.

(** [checkAccess] with a wallet: one question to the subscription
    helper, whose answer replaces the cached entitlement. *)
Lemma checkAccess_caches address st w :
  walletAddress st = Some address -> address <> "" ->
  let o := invoke env checkAccess st w in
  calls o = [called (checkUserSubscription address employer)]
  /\ verificationCount (state o) = verificationCount st
  /\ walletAddress (state o) = walletAddress st
  /\ hasAccess (state o)
     = match fst (env _ (checkUserSubscription address employer) w) with
       | Resolved sub => sub_hasAccess sub
       | Rejected _ => hasAccess st
       end.
Proof.
  intros Hw Ha. unfold invoke, checkAccess. rewrite Hw.
  apply String.eqb_neq in Ha. unfold JS.not. rewrite Ha. cbn.
  destruct (env _ (checkUserSubscription address employer) w) as [[sub|m] w'];
    cbn; auto.
Qed.

(** Lookups that do not overlap never take the count past three. *)
Lemma lookup_within_quota t st w :
  verificationCount st <= 3 ->
  verificationCount (state (lookup env t st w)) <= 3.
Proof.
  intros H. unfold lookup.
  destruct (way None (setTokenId t st)) eqn:Hw;
    [ rewrite verify_blank | rewrite verify_overQuota
    | rewrite verify_admitted ]; try assumption; cbn; try lia.
  rewrite typed_way in Hw.
  destruct (JS.not (JS.trim t)); [discriminate|].
  change (metered (setTokenId t st)) with (metered st).
  destruct (fst (env _ _ w)) as [[cred|]|message]; cbn; try lia.
  destruct (metered st); cbn in *; [|lia].
  destruct (3 <=? verificationCount st) eqn:E; [discriminate|].
  apply Z.leb_gt in E. lia.
Qed.

Lemma lookups_within_quota tokens : forall st w,
  verificationCount st <= 3 ->
  verificationCount (fst (afterLookups env tokens st w)) <= 3.
Proof.
  induction tokens as [|t rest IH]; intros st w H; cbn; [assumption|].
  apply IH. apply lookup_within_quota. assumption.
Qed.

Lemma afterLookups_cons t rest st w :
  afterLookups env (t :: rest) st w
  = afterLookups env rest (state (lookup env t st w))
      (world (lookup env t st w)).
Proof. reflexivity. Qed.

(** C1 (as the component has it).  An identified caller without
    entitlement, starting from a count of zero, looks up four tokens
    the ledger knows, one after the other: the first three lookups
    show a credential and bring the count to 1, 2 and 3; the fourth is
    refused with the limit-reached error without any call to the
    ledger helper.  Once [checkAccess] has then run and the
    subscription helper has answered it with an active access, every
    later lookup of a known token shows a credential and the count
    stays at 3. *)
Theorem free_quota_then_entitlement
    (address t1 t2 t3 t4 : string) (later : list string)
    (st : State) (w w' : W) :
  walletAddress st = Some address -> address <> "" ->
  hasAccess st = false -> verificationCount st = 0 ->
  (forall t, In t (t1 :: t2 :: t3 :: t4 :: later) ->
             JS.trim t <> "" /\ known env t) ->
  fst (env _ (checkUserSubscription address employer) w')
    = Resolved {| sub_hasAccess := true |} ->
  map (report (W:=W)) (lookups env [t1; t2; t3; t4] st w)
    = [ (true, 1, [called (verifyCredential t1)]);
        (true, 2, [called (verifyCredential t2)]);
        (true, 3, [called (verifyCredential t3)]);
        (false, 3, []) ]
  /\ error (fst (afterLookups env [t1; t2; t3; t4] st w)) = Some limitReached
  /\ let o5 := invoke env checkAccess
                 (fst (afterLookups env [t1; t2; t3; t4] st w)) w' in
     hasAccess (state o5) = true
     /\ verificationCount (state o5) = 3
     /\ Forall (fun p => succeeded (state (snd p)) = true
                         /\ verificationCount (state (snd p)) = 3)
               (lookups env later (state o5) (world o5)).
Proof.
  intros Hw Ha Hacc H0 Hall Hsub.
  assert (Hm : metered st = true).
  { unfold metered. rewrite Hw, Hacc. cbn.
    apply String.eqb_neq in Ha. rewrite Ha. reflexivity. }
  destruct (Hall t1 ltac:(cbn; auto)) as [Ht1 Hk1].
  destruct (Hall t2 ltac:(cbn; auto)) as [Ht2 Hk2].
  destruct (Hall t3 ltac:(cbn; auto)) as [Ht3 Hk3].
  destruct (Hall t4 ltac:(cbn; auto)) as [Ht4 _].
  rewrite !afterLookups_cons. cbn [lookups map afterLookups fst].
  destruct (lookup_counted t1 st w Hm ltac:(lia) Ht1 Hk1)
    as (S1 & C1 & M1 & L1).
  set (o1 := lookup env t1 st w) in *.
  destruct (lookup_counted t2 (state o1) (world o1) M1 ltac:(lia) Ht2 Hk2)
    as (S2 & C2 & M2 & L2).
  set (o2 := lookup env t2 (state o1) (world o1)) in *.
  destruct (lookup_counted t3 (state o2) (world o2) M2 ltac:(lia) Ht3 Hk3)
    as (S3 & C3 & M3 & L3).
  set (o3 := lookup env t3 (state o2) (world o2)) in *.
  destruct (lookup_refused t4 (state o3) (world o3) M3 ltac:(lia) Ht4)
    as ((E4 & P4 & L4) & C4 & M4 & _).
  set (o4 := lookup env t4 (state o3) (world o3)) in *.
  assert (W4 : walletAddress (state o4) = Some address).
  { rewrite <- Hw.
    transitivity (walletAddress (state o3));
      [apply (verify_frame None (setTokenId t4 (state o3)) (world o3))|].
    transitivity (walletAddress (state o2));
      [apply (verify_frame None (setTokenId t3 (state o2)) (world o2))|].
    transitivity (walletAddress (state o1));
      [apply (verify_frame None (setTokenId t2 (state o1)) (world o1))|].
    apply (verify_frame None (setTokenId t1 st) w). }
  split; [|split; [exact E4|]].
  - unfold report. cbn [fst snd].
    rewrite S1, S2, S3, L1, L2, L3, L4.
    replace (verificationCount (state o1)) with 1 by lia.
    replace (verificationCount (state o2)) with 2 by lia.
    replace (verificationCount (state o3)) with 3 by lia.
    replace (verificationCount (state o4)) with 3 by lia.
    unfold succeeded. rewrite E4. reflexivity.
  - cbv zeta.
    destruct (checkAccess_caches address (state o4) w' W4 Ha)
      as (_ & C5 & _ & A5).
    rewrite Hsub in A5. cbn in A5.
    split; [exact A5|]. split; [lia|].
    replace 3 with (verificationCount
                      (state (invoke env checkAccess (state o4) w'))) by lia.
    apply lookups_entitled; [exact A5|].
    intros t Hin. apply Hall. cbn. auto.
Qed.

Lemma lookup_world t st w :
  world (lookup env t st w) = w
  \/ world (lookup env t st w) = snd (env _ (verifyCredential t) w).
Proof.
  unfold lookup.
  destruct (way None (setTokenId t st)) eqn:Hw;
    [ rewrite verify_blank | rewrite verify_overQuota
    | rewrite verify_admitted ]; try assumption; cbn; auto.
Qed.

(** One lookup of a token the ledger helper reports as revoked. *)
Lemma lookup_revoked t st w c :
  fst (env _ (verifyCredential t) w) = Resolved (Some c) ->
  cr_revoked c = true ->
  let l := {| PortalTrace.asked := t; PortalTrace.before := st;
              PortalTrace.worldThen := w;
              PortalTrace.after := lookup env t st w |} in
  if PortalTrace.letThrough l then PortalTrace.returnsRevoked env l
  else refused (lookup env t st w).
Proof.
  intros Hr Hc. cbv zeta.
  unfold PortalTrace.letThrough, PortalTrace.returnsRevoked, lookup.
  cbn [PortalTrace.asked PortalTrace.before PortalTrace.worldThen
       PortalTrace.after].
  destruct (way None (setTokenId t st)) eqn:Hw;
    [ rewrite verify_blank | rewrite verify_overQuota
    | rewrite verify_admitted ]; try assumption;
    rewrite typed_way in Hw;
    destruct (JS.not (JS.trim t)); try discriminate;
    destruct (metered st && (3 <=? verificationCount st)) eqn:Hq;
    try discriminate; cbn [negb andb].
  - left. cbn. auto.
  - left. cbn. auto.
  - right. unfold quotaExceeded. cbn. auto.
  - cbn [JS.or_else JS.truthy tokenId setTokenId state calls].
    rewrite Hr.
    split; [|split; [reflexivity|]].
    + cbn. destruct (metered _); reflexivity.
    + exists c. split; [reflexivity|]. split; [|exact Hc].
      cbn. destruct (metered _); reflexivity.
Qed.

(** C2 (as the component has it).  From the moment the ledger helper
    reports a token as revoked (and keeps doing so), every lookup of
    that token that passes the door of [handleVerify] - the token is
    not blank, the quota is not used up - returns the credential the
    ledger helper answered with, marked revoked, and asks no helper
    but the ledger helper; a lookup that does not pass the door is
    refused with its error and calls nothing. *)
Theorem revoked_on_ledger_returned_when_let_through
    (P : W -> Prop) (t : string) :
  revokedSince env P t ->
  forall tokens st w, P w ->
    Forall (fun l =>
              PortalTrace.asked l = t ->
              if PortalTrace.letThrough l
              then PortalTrace.returnsRevoked env l
              else refused (PortalTrace.after l))
           (PortalTrace.traced env tokens st w).
Proof.
  intros [Hkeep Hrev]. induction tokens as [|t' rest IH]; intros st w HP;
    cbn [PortalTrace.traced].
  - constructor.
  - constructor.
    + cbn [PortalTrace.asked]. intros ->.
      destruct (Hrev w HP) as (c & Hr & Hc).
      apply (lookup_revoked t st w c Hr Hc).
    + apply IH. destruct (lookup_world t' st w) as [-> | ->];
        [assumption | apply Hkeep; assumption].
Qed.

(** C6 (as the component has it).  A lookup never asks the
    subscription helper and leaves the cached entitlement as it
    found it; the helper is asked by [checkAccess], once, with the
    wallet address, and its answer is stored in [hasAccess] for the
    lookups that follow. *)
Theorem entitlement_read_from_cache
    (id : option string) (st : State) (w : W) (a : ascii) (s : string) :
  (let o := invoke env (handleVerify id) st w in
   count isEntitlementCheck (calls o) = 0%nat
   /\ hasAccess (state o) = hasAccess st)
  /\ (let st' := setWalletAddress (Some (String a s)) st in
      let o := invoke env checkAccess st' w in
      calls o = [called (checkUserSubscription (String a s) employer)]
      /\ hasAccess (state o)
         = match fst (env _ (checkUserSubscription (String a s) employer) w) with
           | Resolved sub => sub_hasAccess sub
           | Rejected _ => hasAccess st
           end).
Proof.
  split; cbv zeta.
  - split; [|apply verify_frame].
    destruct (way id st) eqn:Hw;
      [ rewrite verify_blank | rewrite verify_overQuota
      | rewrite verify_admitted ]; try assumption; reflexivity.
  - destruct (checkAccess_caches (String a s)
                (setWalletAddress (Some (String a s)) st) w eq_refl)
      as (Hc & _ & _ & Ha); [discriminate|]. auto.
Qed.

(** C10.  A lookup from a closure without wallet address, whatever
    the count and the rest of the state: the count is left as it
    is, the pricing flag too, the call is not refused for the quota,
    and a token that is not blank always reaches the ledger helper. *)
Theorem anonymous_lookup_unmetered (id : option string) (st : State) (w : W) :
  JS.truthy (walletAddress st) = false ->
  let o := invoke env (handleVerify id) st w in
  verificationCount (state o) = verificationCount st
  /\ showPricing (state o) = showPricing st
  /\ ~ quotaExceeded o
  /\ (JS.trim (JS.or_else id (tokenId st)) <> "" ->
      calls o = [called (verifyCredential (JS.or_else id (tokenId st)))]).
Proof.
  intros Hw. cbv zeta.
  assert (Hm : metered st = false) by (unfold metered; rewrite Hw; reflexivity).
  unfold quotaExceeded.
  destruct (way id st) eqn:Hway.
  - rewrite verify_blank by assumption. cbn. repeat split.
    + intros (H & _). discriminate H.
    + intros Hne. unfold way, JS.not in Hway.
      apply String.eqb_neq in Hne. rewrite Hne, Hm in Hway. discriminate.
  - unfold way in Hway. rewrite Hm in Hway.
    destruct (JS.not _); discriminate.
  - rewrite verify_admitted by assumption. cbn. rewrite Hm.
    destruct (fst (env _ _ w)) as [[cred|]|message]; cbn; repeat split;
      try (intros (_ & _ & H); discriminate H).
Qed.

End OneLookup.

(** *** The theorems at work in the demo world *)

Lemma demo_known t :
  In t ["1"; "2"; "3"; "4"; "5"] -> JS.trim t <> "" /\ known Demo.env t.
Proof.
  intros Hin. cbn in Hin.
  repeat (destruct Hin as [<- | Hin];
          [split; [discriminate | intros w; eexists; reflexivity]|]).
  destruct Hin.
Defined.

(** E1 uses its three free lookups on tokens 1, 2 and 3, is refused
    token 4, subscribes, and then looks up tokens 5 and 1. *)
Lemma free_quota_then_entitlement_witness :
  map (report (W:=Demo.World))
      (lookups Demo.env ["1"; "2"; "3"; "4"] Demo.identified Demo.unsubscribed)
    = [ (true, 1, [called (verifyCredential "1")]);
        (true, 2, [called (verifyCredential "2")]);
        (true, 3, [called (verifyCredential "3")]);
        (false, 3, []) ]
  /\ error (fst (afterLookups Demo.env ["1"; "2"; "3"; "4"]
                   Demo.identified Demo.unsubscribed))
     = Some limitReached
  /\ let o5 := invoke Demo.env checkAccess
                 (fst (afterLookups Demo.env ["1"; "2"; "3"; "4"]
                         Demo.identified Demo.unsubscribed))
                 (Demo.subscribedNow Demo.unsubscribed) in
     hasAccess (state o5) = true
     /\ verificationCount (state o5) = 3
     /\ Forall (fun p => succeeded (state (snd p)) = true
                         /\ verificationCount (state (snd p)) = 3)
               (lookups Demo.env ["5"; "1"] (state o5) (world o5)).
Proof.
  apply (free_quota_then_entitlement Demo.World Demo.env
           Demo.E1 "1" "2" "3" "4" ["5"; "1"]
           Demo.identified Demo.unsubscribed
           (Demo.subscribedNow Demo.unsubscribed)).
  - reflexivity.
  - discriminate.
  - reflexivity.
  - reflexivity.
  - intros t Hin. apply demo_known. cbn in Hin |- *. intuition.
  - reflexivity.
Defined.

(** Token 1 is revoked on the demo ledger, and the demo ledger never
    takes a revocation back. *)
Lemma revoked_on_ledger_returned_when_let_through_witness :
  Forall (fun l =>
            PortalTrace.asked l = "1" ->
            if PortalTrace.letThrough l
            then PortalTrace.returnsRevoked Demo.env l
            else refused (PortalTrace.after l))
         (PortalTrace.traced Demo.env ["1"; "2"; "1"; "1"; "1"] Demo.identified
            PortalTrace.tokenOneRevoked).
Proof.
  apply (revoked_on_ledger_returned_when_let_through Demo.World Demo.env
           (fun w => Demo.mem "1" (Demo.revokedTokens w) = true) "1").
  - split.
    + intros X e w Hw. destruct e; exact Hw.
    + intros w Hw. eexists. split; [reflexivity|]. cbn. exact Hw.
  - reflexivity.
Defined.

(** E1 has used its free lookups, the last one on token 1; token 1 is
    then revoked and E1 looks it up again: the lookup is refused, so
    no credential marked revoked is returned. *)
Lemma refused_lookup_returns_no_revocation :
  ~ PortalTrace.revocationReturned Demo.env "1" PortalTrace.afterThree
      PortalTrace.tokenOneRevoked.
Proof.
  unfold PortalTrace.revocationReturned, shownRevoked. intros H.
  destruct H as [He _].
  - eexists. split; reflexivity.
  - vm_compute in He. discriminate He.
Qed.

(** ... and the card of token 1 from before the revocation is still
    the credential of the page. *)
Lemma card_from_before_revocation_stays :
  credential
    (state (lookup Demo.env "1" PortalTrace.afterThree
              PortalTrace.tokenOneRevoked))
  = Some (Demo.diploma "1" false).
Proof. reflexivity. Qed.

(** E1 has been refused a fourth lookup and subscribes; the
    subscription helper now answers active, but nothing has asked it:
    the next lookup is refused all the same. *)
Lemma active_oracle_unseen_without_check :
  ~ PortalTrace.servedOnceOracleActive Demo.env Demo.E1
      ["1"; "2"; "3"; "4"] "5" Demo.identified Demo.unsubscribed
      (Demo.subscribedNow Demo.unsubscribed).
Proof.
  unfold PortalTrace.servedOnceOracleActive. intros H.
  destruct (H eq_refl) as [Hs _]. vm_compute in Hs. discriminate Hs.
Qed.

(** Two lookups in a row by E1 on the demo world: the subscription
    helper is asked by neither. *)
Lemma entitlement_not_checked_on_each_call :
  ~ Asked.checkedOnEachCall Demo.env "1" "2" Demo.identified Demo.unsubscribed.
Proof.
  unfold Asked.checkedOnEachCall. cbn. intros [H _].
  apply Nat.nle_succ_0 in H. exact H.
Qed.

(** An anonymous visitor whose page somehow counts 7 looks up
    token 1. *)
Lemma anonymous_lookup_unmetered_witness :
  let st := setVerificationCount (fun _ => 7) initialState in
  let o := invoke Demo.env (handleVerify (Some "1")) st Demo.unsubscribed in
  verificationCount (state o) = 7
  /\ showPricing (state o) = false
  /\ ~ quotaExceeded o
  /\ (JS.trim "1" <> "" -> calls o = [called (verifyCredential "1")]).
Proof.
  apply (anonymous_lookup_unmetered Demo.World Demo.env (Some "1")
           (setVerificationCount (fun _ => 7) initialState)
           Demo.unsubscribed).
  reflexivity.
Defined.

End PortalTheory.

(* ================================================================== *)
(** ** Pages: what every step keeps *)

Section PageInvariant.

Variables (S W : Type).
Variable env : Env W.
Variable initial : S.
Variable effects : S -> S -> list (S -> Prog S unit).

(** A preorder on states. *)
Variable R : S -> S -> Prop.
Hypothesis R_refl : forall s, R s s.
Hypothesis R_trans : forall a b c, R a b -> R b c -> R a c.

Lemma advance_sound p : forall s (pg : Page S W),
  Keeps R p -> Sound R s pg -> Sound R s (advance p pg).
Proof.
  induction p as [u | f k IH | X e k IH]; intros s pg HK [HR HP]; cbn.
  - split; assumption.
  - destruct HK as [Hf Hk].
    apply IH; [assumption|]. split; cbn; [|assumption].
    apply R_trans with (current pg); auto.
  - split; cbn; [assumption|].
    apply Forall_app. split; [assumption|].
    constructor; [exact HK|constructor].
Qed.

Lemma start_sound hs closure : forall s (pg : Page S W),
  Forall (fun h => Keeps R (h closure)) hs ->
  Sound R s pg -> Sound R s (start hs closure pg).
Proof.
  induction hs as [|h hs IH]; intros s pg Hhs Hpg; cbn; [assumption|].
  inversion Hhs; subst. apply IH; [assumption|].
  apply advance_sound; assumption.
Qed.

(** The hooks keep [R] from whatever render starts them. *)
Hypothesis effects_keep : forall before after c,
  Forall (fun h => Keeps R (h c)) (effects before after).

Lemma rerender_sound before s (pg : Page S W) :
  Sound R s pg -> Sound R s (rerender effects before pg).
Proof. intros H. apply start_sound; [apply effects_keep | assumption]. Qed.

Lemma remove_parked i : forall ts : list (Task S),
  Parked R ts -> Parked R (remove i ts).
Proof.
  induction i as [|i IH]; intros [|t ts] H; cbn; try assumption.
  - inversion H; assumption.
  - inversion H; subst. constructor; [assumption|]. apply IH. assumption.
Qed.

Lemma fire_sound h s (pg : Page S W) :
  Keeps R (h (current pg)) ->
  Sound R s pg -> Sound R s (step env initial effects (Fire h) pg).
Proof.
  intros Hh Hpg. cbn. apply rerender_sound. apply advance_sound; assumption.
Qed.

Lemma settle_sound i s (pg : Page S W) :
  Sound R s pg -> Sound R s (step env initial effects (Settle i) pg).
Proof.
  intros [HR HP]. cbn.
  destruct (nth_error (pending pg) i) as [[X e k]|] eqn:Hn; [|split; assumption].
  destruct (env X e (outside pg)) as [r w'].
  apply rerender_sound. apply advance_sound.
  - apply nth_error_In in Hn. unfold Parked in HP.
    rewrite Forall_forall in HP. apply (HP _ Hn).
  - split; cbn; [assumption|]. apply remove_parked. assumption.
Qed.

Lemma load_sound mount (pg : Page S W) :
  Forall (fun h => Keeps R (h initial)) mount ->
  Sound R initial (step env initial effects (Load mount) pg).
Proof.
  intros Hm. cbn. apply rerender_sound. apply start_sound; [assumption|].
  split; cbn; [apply R_refl | constructor].
Qed.

End PageInvariant.

(* ================================================================== *)
(** ** Theory of the verification portal: whole sessions *)

Module PortalPages.

Import VerificationPortal PortalSession PortalTheory.

Lemma noLower_refl s : noLower s s.
Proof. unfold noLower. lia. Qed.

Lemma noLower_trans a b c : noLower a b -> noLower b c -> noLower a c.
Proof. unfold noLower. lia. Qed.

Lemma sameCount_refl s : sameCount s s.
Proof. reflexivity. Qed.

Lemma sameCount_trans a b c : sameCount a b -> sameCount b c -> sameCount a c.
Proof. unfold sameCount. congruence. Qed.

Lemma Keeps_weaken (R R' : State -> State -> Prop) p :
  (forall s s', R s s' -> R' s s') -> Keeps R p -> Keeps R' p.
Proof.
  intros HR. induction p as [u | f k IH | X e k IH]; cbn; auto.
  intros [Hf Hk]. auto.
Qed.

Lemma sameCount_noLower s s' : sameCount s s' -> noLower s s'.
Proof. unfold sameCount, noLower. lia. Qed.

(** Settles a [Keeps] goal over a handler that has been unfolded. *)
Ltac keeps :=
  repeat first
    [ progress cbn
    | match goal with
      | |- Keeps _ (if ?b then _ else _) => destruct b
      | |- Keeps _ (match ?x with _ => _ end) => destruct x
      | |- Keeps _ ?p =>
          match p with
          | context [if ?b then _ else _] => destruct b
          | context [match ?x with _ => _ end] => is_var x; destruct x
          end
      | |- _ /\ _ => split
      | |- forall _, _ => intro
      | |- True => exact I
      | |- noLower _ _ => unfold noLower; cbn; lia
      | |- sameCount _ _ => reflexivity
      end ].

Lemma handleVerify_noLower id c : Keeps noLower (handleVerify id c).
Proof. unfold handleVerify, try_catch_finally. keeps. Qed.

(** A lookup from a closure that is not metered leaves the count
    alone. *)
Lemma handleVerify_sameCount id c :
  metered c = false -> Keeps sameCount (handleVerify id c).
Proof. intros Hm. unfold handleVerify, try_catch_finally. rewrite Hm. keeps. Qed.

Lemma checkAccess_sameCount c : Keeps sameCount (checkAccess c).
Proof. unfold checkAccess. keeps. Qed.

Lemma checkWalletConnection_sameCount ethereum c :
  Keeps sameCount (checkWalletConnection ethereum c).
Proof. unfold checkWalletConnection. keeps. Qed.

Lemma handleConnectWallet_sameCount c : Keeps sameCount (handleConnectWallet c).
Proof. unfold handleConnectWallet. keeps. Qed.

Lemma handler_noLower e c : Keeps noLower (handler e c).
Proof.
  destruct e; cbn [handler];
    try apply handleVerify_noLower;
    try (apply (Keeps_weaken sameCount noLower _ sameCount_noLower);
         first [ apply handleConnectWallet_sameCount
               | unfold onPricingSuccess, checkAccess; keeps ]);
    keeps.
Qed.

Lemma walletEffect_sameCount before after c :
  Forall (fun h => Keeps sameCount (h c)) (walletEffect before after).
Proof.
  unfold walletEffect. destruct (sameAddress _ _); constructor;
    [apply checkAccess_sameCount | constructor].
Qed.

Lemma walletEffect_noLower before after c :
  Forall (fun h => Keeps noLower (h c)) (walletEffect before after).
Proof.
  eapply Forall_impl; [|apply walletEffect_sameCount].
  intros h. apply Keeps_weaken, sameCount_noLower.
Qed.

(** The mount effect runs from the first render, where nobody is
    metered. *)
Lemma mountEffect_sameCount verifyParam ethereum :
  Forall (fun h => Keeps sameCount (h initialState))
         (mountEffect verifyParam ethereum).
Proof.
  unfold mountEffect. constructor; [|constructor; [|constructor]].
  - destruct verifyParam as [p|]; [|exact I].
    destruct (JS.not p); [exact I|]. cbn. split; [reflexivity|].
    apply handleVerify_sameCount. reflexivity.
  - apply checkWalletConnection_sameCount.
Qed.

Lemma mountEffect_noLower verifyParam ethereum :
  Forall (fun h => Keeps noLower (h initialState))
         (mountEffect verifyParam ethereum).
Proof.
  eapply Forall_impl; [|apply mountEffect_sameCount].
  intros h. apply Keeps_weaken, sameCount_noLower.
Qed.

Lemma sameAddress_refl a : sameAddress a a = true.
Proof. destruct a as [x|]; cbn; [apply String.eqb_refl | reflexivity]. Qed.

Section Sessions.

Variable W : Type.
Variable env : Env W.

Lemma play_app history more w :
  play env (history ++ more) w
  = steps env initialState walletEffect (map action more) (play env history w).
Proof. unfold play, steps. rewrite map_app, fold_left_app. reflexivity. Qed.

(** A lookup fired on a quiet page and settled at once is the
    lookup run to completion. *)
Lemma lookup_as_steps id (pg : Page State W) :
  pending pg = [] ->
  steps env initialState walletEffect [Fire (handleVerify id); Settle 0] pg
  = let o := invoke env (handleVerify id) (current pg) (outside pg) in
    {| current := state o; outside := world o; pending := [];
       issued := issued pg ++ calls o |}.
Proof.
  intros Hp. destruct pg as [st w ts log]. cbn in Hp. subst ts.
  cbv zeta. cbn [current outside issued].
  destruct (way id st) eqn:Hw;
    [ rewrite verify_blank | rewrite verify_overQuota
    | rewrite verify_admitted ]; try assumption;
    unfold way in Hw; unfold steps, step, handleVerify, try_catch_finally;
    cbn [fold_left current];
    destruct (JS.not (JS.trim (JS.or_else id (tokenId st))));
      try discriminate;
    try (destruct (metered st && (3 <=? verificationCount st)) eqn:Hq;
         try discriminate);
    cbn; unfold rerender, walletEffect; cbn;
    rewrite ?sameAddress_refl; cbn; rewrite ?app_nil_r; try reflexivity.
  destruct (env _ (verifyCredential (JS.or_else id (tokenId st))) w)
    as [[[cred|]|message] w']; cbn;
    try (destruct (metered st)); cbn;
    rewrite ?sameAddress_refl; reflexivity.
Qed.

Lemma inputs_parked inputs : forall pg : Page State W,
  Parked noLower (pending pg) ->
  Parked noLower
    (pending (steps env initialState walletEffect (map action inputs) pg)).
Proof.
  induction inputs as [|i inputs IH]; intros pg HP; [assumption|].
  cbn. apply IH. destruct i as [vp eth | [e | n]]; cbn [action moveAction].
  - apply (load_sound State W env initialState walletEffect noLower
             noLower_refl noLower_trans walletEffect_noLower).
    apply mountEffect_noLower.
  - apply (fire_sound State W env initialState walletEffect noLower
             noLower_trans walletEffect_noLower _ (current pg)).
    + apply handler_noLower.
    + split; [apply noLower_refl | assumption].
  - apply (settle_sound State W env initialState walletEffect noLower
             noLower_trans walletEffect_noLower _ (current pg)).
    split; [apply noLower_refl | assumption].
Qed.

Lemma moves_noLower moves : forall s (pg : Page State W),
  Sound noLower s pg ->
  Sound noLower s
    (steps env initialState walletEffect (map moveAction moves) pg).
Proof.
  induction moves as [|m moves IH]; intros s pg Hpg; [assumption|].
  cbn. apply IH. destruct m as [e | n]; cbn [moveAction].
  - apply (fire_sound State W env initialState walletEffect noLower
             noLower_trans walletEffect_noLower); [|assumption].
    apply handler_noLower.
  - apply (settle_sound State W env initialState walletEffect noLower
             noLower_trans walletEffect_noLower). assumption.
Qed.

Lemma settles_sameCount order : forall s (pg : Page State W),
  Sound sameCount s pg ->
  Sound sameCount s
    (steps env initialState walletEffect (map (@Settle State) order) pg).
Proof.
  induction order as [|n order IH]; intros s pg Hpg; [assumption|].
  cbn. apply IH.
  apply (settle_sound State W env initialState walletEffect sameCount
           sameCount_trans walletEffect_sameCount). assumption.
Qed.

Lemma load_sameCount verifyParam ethereum (pg : Page State W) :
  Sound sameCount initialState
    (step env initialState walletEffect
       (Load (mountEffect verifyParam ethereum)) pg).
Proof.
  apply (load_sound State W env initialState walletEffect sameCount
           sameCount_refl sameCount_trans walletEffect_sameCount).
  apply mountEffect_sameCount.
Qed.

(** C4 (as the component has it).  The count lives in the state of
    the mounted page: whatever the user does and whatever answers
    arrive, in any order, it never goes down while the page stays
    mounted (an access check that turns active included); a
    (re)load of the page starts it again at zero. *)
Theorem counter_kept_while_mounted
    (history : list Input) (moves : list Move)
    (verifyParam : option string) (ethereum : bool) (w : W) :
  verificationCount (current (play env history w))
  <= verificationCount (current (play env (history ++ map during moves) w))
  /\ verificationCount
       (current (play env (history ++ [reload verifyParam ethereum]) w)) = 0.
Proof.
  rewrite !play_app. split.
  - rewrite map_map. cbn [action].
    apply (moves_noLower moves (current (play env history w))).
    split; [apply noLower_refl|].
    unfold play. apply inputs_parked. constructor.
  - cbn. apply (load_sameCount verifyParam ethereum (play env history w)).
Qed.

(** C7 (as the component has it).  A token of a share link goes
    through the same [handleVerify] as a typed token, but the mount
    effect starts it from the first render, before any wallet is
    known: the lookup is sent to the ledger helper without a quota
    check, and it is never counted, whatever wallet the probe
    finds afterwards and in whatever order the answers arrive. *)
Theorem shared_lookup_runs_unidentified
    (a : ascii) (s : string) (c : State)
    (verifyParam : option string) (ethereum : bool)
    (order : list nat) (w : W) :
  handleVerify (Some (String a s)) c
    = handleVerify None (setTokenId (String a s) c)
  /\ issued (play env [reload verifyParam ethereum] w)
     = (match verifyParam with
        | Some p =>
            if JS.not (JS.trim p) then [] else [called (verifyCredential p)]
        | None => []
        end
        ++ (if ethereum then [called eth_accounts] else []))%list
  /\ verificationCount
       (current (play env (reload verifyParam ethereum
                             :: map (fun i => during (settled i)) order) w))
     = 0.
Proof.
  split; [reflexivity|]. split.
  - unfold play, steps. cbn [map fold_left action step].
    unfold mountEffect, start, fresh.
    destruct verifyParam as [[|a' s']|];
      [destruct ethereum; reflexivity| |destruct ethereum; reflexivity].
    change (JS.not (String a' s')) with false. cbv iota.
    unfold handleVerify, try_catch_finally.
    change (JS.or_else (Some (String a' s')) (tokenId initialState))
      with (String a' s').
    destruct (JS.not (JS.trim (String a' s'))); destruct ethereum; reflexivity.
  - change (reload verifyParam ethereum
              :: map (fun i => during (settled i)) order)
      with ([reload verifyParam ethereum]
              ++ map (fun i => during (settled i)) order)%list.
    rewrite play_app, map_map. cbn [action moveAction].
    apply (settles_sameCount order initialState).
    apply (load_sameCount verifyParam ethereum (fresh initialState w)).
Qed.

(** *** Lookups that overlap *)

(** No hook runs after a step that leaves the wallet address alone. *)
Lemma rerender_same before (pg : Page State W) :
  walletAddress before = walletAddress (current pg) ->
  rerender walletEffect before pg = pg.
Proof.
  intros H. unfold rerender, walletEffect. rewrite H, sameAddress_refl.
  reflexivity.
Qed.

(** Pressing Enter on a quiet or busy page, as a metered caller below
    the limit: the lookup is sent and parked. *)
Lemma press_parks (pg : Page State W) :
  metered (current pg) = true ->
  verificationCount (current pg) < 3 ->
  JS.trim (tokenId (current pg)) <> "" ->
  exists task,
    Counting W (tokenId (current pg)) task
    /\ portalStep env (Fire (handleVerify None)) pg
       = {| current := searching (current pg); outside := outside pg;
            pending := pending pg ++ [task];
            issued := issued pg
                      ++ [called (verifyCredential (tokenId (current pg)))] |}.
Proof.
  intros Hm Hc Ht. destruct pg as [st w ts log]. cbn [current] in *.
  unfold portalStep, step, handleVerify, try_catch_finally. cbn [current].
  rewrite or_else_none. apply String.eqb_neq in Ht. unfold JS.not.
  rewrite Ht, Hm.
  destruct (3 <=? verificationCount st) eqn:E;
    [apply Z.leb_le in E; lia|].
  cbn. rewrite rerender_same by reflexivity.
  eexists. split; [|reflexivity].
  eexists. split; [reflexivity|].
  intros cred pg'. reflexivity.
Qed.

Lemma presses_park token n : forall pg : Page State W,
  metered (current pg) = true ->
  verificationCount (current pg) < 3 ->
  JS.trim token <> "" -> tokenId (current pg) = token ->
  Forall (Counting W token) (pending pg) ->
  let pg' := steps env initialState walletEffect
               (repeat (Fire (handleVerify None)) n) pg in
  Forall (Counting W token) (pending pg')
  /\ List.length (pending pg') = (List.length (pending pg) + n)%nat
  /\ verificationCount (current pg') = verificationCount (current pg)
  /\ count isVerify (issued pg') = (count isVerify (issued pg) + n)%nat.
Proof.
  induction n as [|n IH]; intros pg Hm Hc Ht Hid HF; cbv zeta;
    unfold steps; cbn [repeat fold_left].
  - repeat split; auto.
  - rewrite <- Hid in Ht.
    destruct (press_parks pg Hm Hc Ht) as (task & Htask & Hstep).
    unfold portalStep in Hstep. rewrite Hstep. rewrite Hid in *.
    match goal with
    | |- context [fold_left _ _ ?q] =>
        destruct (IH q) as (F & L & C & I)
    end; cbn [current pending issued]; try assumption.
    + apply Forall_app. split; [assumption | constructor; [assumption|constructor]].
    + unfold steps in F, L, C, I. cbn [current pending issued] in L, C, I.
      repeat split; [exact F | | exact C | ].
      * rewrite L, length_app. cbn. lia.
      * rewrite I. unfold count. rewrite filter_app, length_app. cbn. lia.
Qed.

Lemma answers_count token n : forall pg : Page State W,
  known env token ->
  Forall (Counting W token) (pending pg) ->
  List.length (pending pg) = n ->
  let pg' := steps env initialState walletEffect (repeat (Settle 0) n) pg in
  verificationCount (current pg') = verificationCount (current pg) + Z.of_nat n
  /\ pending pg' = []
  /\ issued pg' = issued pg.
Proof.
  induction n as [|n IH]; intros pg Hk HF Hl; cbv zeta.
  - cbn. destruct (pending pg); [auto with zarith | discriminate].
  - destruct pg as [st w ts log]. cbn [pending] in *.
    destruct ts as [|task ts]; [discriminate|].
    inversion HF as [|? ? (k & -> & Hadv) HF']; subst.
    destruct (Hk w) as [cred Hcred].
    assert (Hstep :
      step env initialState walletEffect (Settle 0)
        {| current := st; outside := w;
           pending := parked (verifyCredential token) k :: ts; issued := log |}
      = {| current := answered true (Resolved (Some cred)) st; outside :=
             snd (env _ (verifyCredential token) w);
           pending := ts; issued := log |}).
    { cbn [step pending nth_error outside current issued].
      destruct (env _ (verifyCredential token) w) as [r w'].
      cbn in Hcred. subst r. rewrite Hadv.
      apply rerender_same. reflexivity. }
    unfold steps. cbn [repeat fold_left]. rewrite Hstep.
    match goal with
    | |- context [fold_left _ _ ?q] => destruct (IH q Hk) as (C & P & I)
    end; cbn [pending]; [assumption | cbn in Hl; lia |].
    unfold steps in C, P, I. rewrite C, P, I.
    cbn [current issued]. rewrite Nat2Z.inj_succ.
    repeat split. cbn. lia.
Qed.

(** X13.  A metered caller with nothing counted yet presses Enter [n]
    times on a token the ledger knows before any answer arrives: all
    [n] lookups are sent, and once they are answered the count is [n],
    whatever [n]. *)
Lemma overlapping_lookups_all_counted token n st w :
  metered st = true -> verificationCount st = 0 ->
  JS.trim token <> "" -> known env token ->
  let pg := steps env initialState walletEffect
              (map moveAction (enterPresses n))
              {| current := setTokenId token st; outside := w;
                 pending := []; issued := [] |} in
  verificationCount (current pg) = Z.of_nat n
  /\ count isVerify (issued pg) = n
  /\ pending pg = [].
Proof.
  intros Hm H0 Ht Hk. unfold enterPresses.
  rewrite map_app, !map_repeat. cbn [moveAction handler].
  unfold steps. rewrite fold_left_app. cbv zeta.
  assert (Hc : verificationCount (setTokenId token st) < 3)
    by (cbn; lia).
  destruct (presses_park token n
              {| current := setTokenId token st; outside := w;
                 pending := []; issued := [] |}
              Hm Hc Ht eq_refl (Forall_nil _))
    as (F & L & C & I).
  unfold steps in F, L, C, I. cbn [current pending issued] in *.
  match goal with
  | |- context [fold_left _ (repeat (Settle 0) n) ?q] =>
      destruct (answers_count token n q Hk F L) as (C' & P' & I')
  end.
  unfold steps in C', P', I'. rewrite C', P', I', C, I.
  cbn [verificationCount setTokenId count filter List.length]. rewrite H0.
  auto.
Qed.

End Sessions.

(** *** Sessions of E1 on the demo world *)

(** Opening the page with the wallet of E1 leads to the state the
    lookups of the demo start from. *)
Lemma opened_identified :
  current (play Demo.env Scenario.opened Demo.unsubscribed) = Demo.identified.
Proof. reflexivity. Qed.

(** E1 uses its three free lookups and reloads the page: the count
    is back at zero. *)
Lemma counter_lost_on_reload :
  ~ Asked.counterSurvives Demo.env Scenario.threeLookups (reload None true)
      Demo.unsubscribed.
Proof.
  unfold Asked.counterSurvives.
  replace (verificationCount
             (current (play Demo.env Scenario.threeLookups Demo.unsubscribed)))
    with 3 by (vm_compute; reflexivity).
  replace (verificationCount
             (current (play Demo.env
                         (Scenario.threeLookups ++ [reload None true])
                         Demo.unsubscribed)))
    with 0 by (vm_compute; reflexivity).
  lia.
Qed.

(** E1, wallet connected and not subscribed, sees token 1 through a
    share link (count 0) or by typing it (count 1). *)
Lemma shared_lookup_not_counted :
  ~ Asked.sharedAsDirect Demo.env Scenario.viaShareLink Scenario.viaInput
      Demo.unsubscribed.
Proof.
  unfold Asked.sharedAsDirect.
  replace (verificationCount
             (current (play Demo.env Scenario.viaShareLink Demo.unsubscribed)))
    with 0 by (vm_compute; reflexivity).
  replace (verificationCount
             (current (play Demo.env Scenario.viaInput Demo.unsubscribed)))
    with 1 by (vm_compute; reflexivity).
  lia.
Qed.

(** C8.  E1, wallet connected and not subscribed, types token 1 and
    presses Enter four times before the first answer arrives: each
    of the four lookups passes the quota check on a count of zero,
    all four reach the ledger helper, all four are shown and
    counted, and the count ends at 4. *)
Theorem overlapping_lookups_overshoot :
  let pg := play Demo.env Scenario.fourAtOnce Demo.unsubscribed in
  verificationCount (current pg) = 4
  /\ count isVerify (issued pg) = 4%nat
  /\ succeeded (current pg) = true
  /\ List.length (pending pg) = 0%nat
  /\ ~ Asked.quotaHolds Demo.env Scenario.fourAtOnce Demo.unsubscribed.
Proof.
  assert (E : verificationCount
                (current (play Demo.env Scenario.fourAtOnce Demo.unsubscribed))
              = 4) by (vm_compute; reflexivity).
  cbv zeta. split; [exact E|].
  split; [vm_compute; reflexivity|].
  split; [vm_compute; reflexivity|].
  split; [vm_compute; reflexivity|].
  unfold Asked.quotaHolds. rewrite E. lia.
Qed.

End PortalPages.

(* ================================================================== *)
(** ** Theory of the institution dashboard *)

Module DashboardTheory.

Import InstitutionDashboard DashboardSession.

Section OneSubmission.

Variable W : Type.
Variable env : Env W.

(** C9 (as the component has it).  A form without a picked file,
    or whose student address is not [0x] followed by forty
    hexadecimal digits, is refused with the matching message
    before any helper is called: nothing is uploaded, minted or
    written to the index, and the form is left as typed. *)
Theorem malformed_form_refused_untouched (st : State) (w : W) :
  document (formData st) = None
  \/ matchesAddress (studentAddress (formData st)) = false ->
  let o := invoke env handleSubmit st w in
  calls o = []
  /\ world o = w
  /\ success (state o) = None
  /\ error (state o)
     = Some (match document (formData st) with
             | None => uploadDocument
             | Some _ => invalidAddress
             end)
  /\ formData (state o) = formData st
  /\ loading (state o) = false.
Proof.
  intros H. unfold invoke, handleSubmit, try_catch_finally. cbn.
  destruct (document (formData st)) as [doc|] eqn:Hd.
  - destruct H as [H|H]; [discriminate|]. rewrite H. cbn. auto 6.
  - cbn. auto 6.
Qed.

(** What a submission whose upload answered sends to the ledger,
    and where a reported token comes from. *)
Lemma submission_mints f st w doc h :
  document f = Some doc ->
  matchesAddress (studentAddress f) = true ->
  fst (env _ (uploadToIPFS doc) w) = Resolved h ->
  let o := submit env f st w in
  let mint := issueCredential (studentAddress f) h (degreeLabel f)
                (institutionName f) in
  filter isMint (calls o) = [called mint]
  /\ (forall res, success (state o) = Some res ->
        fst (env _ mint (snd (env _ (uploadToIPFS doc) w))) = Resolved res).
Proof.
  intros Hd Ha Hu.
  unfold submit, invoke, handleSubmit, loadStats, try_catch_finally.
  cbn. rewrite Hd, Ha. cbn.
  destruct (env _ (uploadToIPFS doc) w) as [[h'|m] w1]; cbn in *;
    [|discriminate].
  injection Hu as ->.
  destruct (env _ (issueCredential (studentAddress f) h (degreeLabel f)
                     (institutionName f)) w1) as [[res|m] w2]; cbn;
    [|split; [reflexivity | discriminate]].
  destruct (walletAddress st) as [wallet|]; cbn;
    [|split; [reflexivity | intros ? [= <-]; reflexivity]].
  destruct (JS.not wallet); cbn;
    [split; [reflexivity | intros ? [= <-]; reflexivity]|].
  destruct (env _ (saveCredential _ _ _ _ _ _) w2) as [[[]|m] w3]; cbn;
    [|split; [reflexivity | discriminate]].
  destruct (env _ (getInstitutionStats wallet) w3) as [[stats'|m] w4]; cbn;
    split; try reflexivity; try discriminate.
  intros ? [= <-]; reflexivity.
Qed.

(** C3 (as the component has it).  Submitting the same valid form
    twice sends two mints to the ledger helper, one per
    submission, each with the student address, the hash the upload
    returned, the degree label and the institution name and
    nothing else; the token a submission reports is the one the
    ledger helper returned for that submission's own mint. *)
Theorem each_submission_mints
    (f : FormData) (st : State) (w : W) (doc : File) (h1 h2 : string) :
  document f = Some doc ->
  matchesAddress (studentAddress f) = true ->
  let o1 := submit env f st w in
  let o2 := submit env f (state o1) (world o1) in
  let mint h := issueCredential (studentAddress f) h (degreeLabel f)
                  (institutionName f) in
  fst (env _ (uploadToIPFS doc) w) = Resolved h1 ->
  fst (env _ (uploadToIPFS doc) (world o1)) = Resolved h2 ->
  filter isMint (calls o1 ++ calls o2) = [called (mint h1); called (mint h2)]
  /\ (forall res, success (state o1) = Some res ->
        fst (env _ (mint h1) (snd (env _ (uploadToIPFS doc) w)))
          = Resolved res)
  /\ (forall res, success (state o2) = Some res ->
        fst (env _ (mint h2) (snd (env _ (uploadToIPFS doc) (world o1))))
          = Resolved res).
Proof.
  intros Hd Ha o1 o2 mint Hu1 Hu2.
  destruct (submission_mints f st w doc h1 Hd Ha Hu1) as [M1 T1].
  destruct (submission_mints f (state o1) (world o1) doc h2 Hd Ha Hu2)
    as [M2 T2].
  fold o1 in M1, T1. fold o2 in M2, T2.
  rewrite filter_app, M1, M2. auto.
Qed.

(** C5 (as the component has it).  When the upload and the mint
    succeed and the index write then throws, the submission stops
    there: the error of the index write is what the institution
    sees, no success is reported and the form is kept as typed.
    The mint stays as the ledger took it: the calls made are the
    upload, the mint and the index write, in that order, and no
    call follows. *)
Theorem index_failure_reported_after_mint
    (st : State) (w w1 w2 w3 : W) (doc : File) (wallet h message : string)
    (res : IssueResult) :
  let f := formData st in
  let mint := issueCredential (studentAddress f) h (degreeLabel f)
                (institutionName f) in
  let save := saveCredential (ir_tokenId res) (studentAddress f)
                (institutionName f) wallet (degreeLabel f) h in
  document f = Some doc ->
  matchesAddress (studentAddress f) = true ->
  walletAddress st = Some wallet -> wallet <> "" ->
  env _ (uploadToIPFS doc) w = (Resolved h, w1) ->
  env _ mint w1 = (Resolved res, w2) ->
  env _ save w2 = (Rejected message, w3) ->
  let o := invoke env handleSubmit st w in
  calls o = [called (uploadToIPFS doc); called mint; called save]
  /\ success (state o) = None
  /\ error (state o) = Some (JS.or_else (Some message) issueFailed)
  /\ formData (state o) = formData st
  /\ world o = w3.
Proof.
  intros f mint save Hd Ha Hw Hne Hu Hm Hs.
  unfold invoke, handleSubmit, loadStats, try_catch_finally.
  fold f. rewrite Hd, Ha. cbn. rewrite Hu. cbn.
  fold mint. rewrite Hm. cbn. rewrite Hw.
  apply String.eqb_neq in Hne. unfold JS.not. rewrite Hne. cbn.
  fold f save. rewrite Hs. cbn. auto 6.
Qed.

End OneSubmission.

(** *** Submissions on the demo world *)

Import Scenario.

(** The demo dashboard shows the issuance form. *)
Lemma dashboard_shows_form : formShown dashboard = true.
Proof. reflexivity. Qed.

(** The BSc of S1 is submitted twice: tokens 1 and 2 are minted. *)
Lemma same_form_minted_twice :
  ~ Asked.mintedOnce Demo.env (bsc (Some scan)) dashboard indexFine.
Proof.
  unfold Asked.mintedOnce. intros [H _]. vm_compute in H. discriminate H.
Qed.

Lemma each_submission_mints_witness :
  let f := bsc (Some scan) in
  let o1 := submit Demo.env f dashboard indexFine in
  let o2 := submit Demo.env f (state o1) (world o1) in
  let mint h := issueCredential (studentAddress f) h (degreeLabel f)
                  (institutionName f) in
  filter isMint (calls o1 ++ calls o2)
    = [called (mint "Qm%PDF"); called (mint "Qm%PDF")]
  /\ (forall res, success (state o1) = Some res ->
        fst (Demo.env (mint "Qm%PDF")
               (snd (Demo.env (uploadToIPFS scan) indexFine)))
          = Resolved res)
  /\ (forall res, success (state o2) = Some res ->
        fst (Demo.env (mint "Qm%PDF")
               (snd (Demo.env (uploadToIPFS scan) (world o1))))
          = Resolved res).
Proof.
  apply (each_submission_mints Demo.World Demo.env (bsc (Some scan))
           dashboard indexFine scan "Qm%PDF" "Qm%PDF");
    reflexivity.
Defined.

(** The index is down while the BSc of S1 is issued. *)
Lemma index_failure_is_fatal :
  ~ Asked.indexFailureNotFatal Demo.env
      (setFormData (bsc (Some scan)) dashboard) indexDown.
Proof.
  intros H.
  destruct (H scan Demo.I1 "Qm%PDF" indexDown
              {| ir_tokenId := "1"; ir_txHash := "0xfeed" |}
              (Demo.afterMint indexDown) "index unavailable"
              (Demo.afterMint indexDown)
              eq_refl eq_refl eq_refl eq_refl eq_refl) as [Hs _].
  vm_compute in Hs. discriminate Hs.
Qed.

Lemma index_failure_reported_after_mint_witness :
  let st := setFormData (bsc (Some scan)) dashboard in
  let o := invoke Demo.env handleSubmit st indexDown in
  calls o
    = [ called (uploadToIPFS scan);
        called (issueCredential Demo.S1 "Qm%PDF" "BSc (2024)" "I1");
        called (saveCredential "1" Demo.S1 "I1" Demo.I1 "BSc (2024)" "Qm%PDF") ]
  /\ success (state o) = None
  /\ error (state o) = Some "index unavailable"
  /\ formData (state o) = bsc (Some scan)
  /\ world o = Demo.afterMint indexDown.
Proof.
  apply (index_failure_reported_after_mint Demo.World Demo.env
           (setFormData (bsc (Some scan)) dashboard)
           indexDown indexDown (Demo.afterMint indexDown)
           (Demo.afterMint indexDown) scan Demo.I1 "Qm%PDF"
           "index unavailable"
           {| ir_tokenId := "1"; ir_txHash := "0xfeed" |});
    first [reflexivity | discriminate].
Defined.

(** A file without bytes and a well-formed address. *)
Lemma empty_document_is_issued :
  ~ Asked.refusedUntouched Demo.env
      (setFormData (bsc (Some emptyScan)) dashboard) indexFine.
Proof.
  unfold Asked.refusedUntouched. intros H.
  destruct (H (or_intror eq_refl)) as [Hc _].
  vm_compute in Hc. discriminate Hc.
Qed.

(** No file picked. *)
Lemma malformed_form_refused_untouched_witness :
  let st := setFormData (bsc None) dashboard in
  let o := invoke Demo.env handleSubmit st indexFine in
  calls o = []
  /\ world o = indexFine
  /\ success (state o) = None
  /\ error (state o) = Some uploadDocument
  /\ formData (state o) = bsc None
  /\ loading (state o) = false.
Proof.
  apply (malformed_form_refused_untouched Demo.World Demo.env
           (setFormData (bsc None) dashboard) indexFine).
  left. reflexivity.
Defined.

End DashboardTheory.

(* ================================================================== *)
(** ** More on the verification portal *)

Module PortalMore.

Import VerificationPortal PortalSession PortalView PortalTheory PortalPages.

Section Lookups.

Variable W : Type.
Variable env : Env W.

(** X1.  As long as lookups do not overlap, the banner of free
    verifications left, [3 - verificationCount], never shows a
    negative number: after every lookup of any sequence of lookups,
    whatever the helper answers. *)
Theorem free_left_never_negative (tokens : list string) : forall st w,
  0 <= freeLeft st ->
  Forall (fun p => 0 <= freeLeft (state (snd p))) (lookups env tokens st w).
Proof.
  unfold freeLeft.
  induction tokens as [|t rest IH]; intros st w H; cbn [lookups].
  - constructor.
  - assert (H1 : verificationCount (state (lookup env t st w)) <= 3)
      by (apply lookup_within_quota; lia).
    constructor; [cbn [snd]; lia | apply IH; lia].
Qed.

(** X2.  A lookup that is let through and finds nothing - the helper
    answers [null] or throws - is free: the count is as before, no
    credential is shown (the one shown before is cleared), and the
    error says what happened: the not-found text, the message of the
    exception, or the fallback text when the message is empty. *)
Theorem failed_lookup_is_free (id : option string) (st : State) (w : W) :
  way id st = admitted ->
  (forall c, fst (env _ (verifyCredential (JS.or_else id (tokenId st))) w)
             <> Resolved (Some c)) ->
  let o := invoke env (handleVerify id) st w in
  verificationCount (state o) = verificationCount st
  /\ credential (state o) = None
  /\ loading (state o) = false
  /\ searched (state o) = true
  /\ error (state o)
     = Some (match fst (env _ (verifyCredential (JS.or_else id (tokenId st))) w) with
             | Rejected "" => verifyFailed
             | Rejected message => message
             | Resolved _ => notFound
             end).
Proof.
  intros Hw Hno. cbv zeta. rewrite verify_admitted by assumption. cbn.
  destruct (fst (env _ _ w)) as [[c|]|message]; cbn.
  - exfalso. apply (Hno c). reflexivity.
  - auto.
  - destruct message; cbn; auto.
Qed.

(** X3.  A lookup that is refused at the door - no token typed, or no
    quota left - calls no helper and leaves the page as it was apart
    from the error: a credential shown by an earlier lookup stays on
    the page, next to the error. *)
Theorem refused_lookup_keeps_display (id : option string) (st : State) (w : W) :
  way id st <> admitted ->
  let o := invoke env (handleVerify id) st w in
  calls o = []
  /\ world o = w
  /\ credential (state o) = credential st
  /\ searched (state o) = searched st
  /\ loading (state o) = loading st
  /\ verificationCount (state o) = verificationCount st
  /\ error (state o)
     = Some (if JS.not (JS.trim (JS.or_else id (tokenId st)))
             then enterTokenId else limitReached).
Proof.
  intros Hw. cbv zeta. destruct (way id st) eqn:E; [| |congruence].
  - rewrite verify_blank by assumption. unfold way in E.
    destruct (JS.not _); [cbn; auto 8|].
    destruct (metered st && _); discriminate.
  - rewrite verify_overQuota by assumption. unfold way in E.
    destruct (JS.not _); [discriminate|]. cbn. auto 8.
Qed.

Lemma fire_quiet h (pg : Page State W) :
  walletAddress (current (advance (h (current pg)) pg))
    = walletAddress (current pg) ->
  step env initialState walletEffect (Fire h) pg = advance (h (current pg)) pg.
Proof. intros H. cbn. apply rerender_same. symmetry. exact H. Qed.

Lemma settle_only X (e : Ext X) k st w log :
  step env initialState walletEffect (Settle 0)
    {| current := st; outside := w; pending := [parked e k]; issued := log |}
  = rerender walletEffect st
      (advance (k (fst (env _ e w)))
         {| current := st; outside := snd (env _ e w); pending := [];
            issued := log |}).
Proof. cbn. destruct (env X e w); reflexivity. Qed.

Lemma rerender_changed before (pg : Page State W) :
  sameAddress (walletAddress before) (walletAddress (current pg)) = false ->
  rerender walletEffect before pg = advance (checkAccess (current pg)) pg.
Proof. intros H. unfold rerender, walletEffect. rewrite H. reflexivity. Qed.

Lemma settle_none i (pg : Page State W) :
  pending pg = [] -> step env initialState walletEffect (Settle i) pg = pg.
Proof. intros H. cbn. rewrite H. destruct i; reflexivity. Qed.

(** X4.  Connect Wallet on a page without wallet, followed to the end:
    when [connectWallet] answers with an address, the address is
    stored and the effect on the address asks the subscription helper
    about that address as an employer, once; the answer becomes
    [hasAccess] (a helper that throws leaves [hasAccess] as it was and
    [checkingAccess] on).  When [connectWallet] answers nothing or
    throws, the page stays as it was and the subscription helper is
    not asked.  The count is never touched. *)
Theorem connect_then_access_check (pg : Page State W) :
  pending pg = [] ->
  JS.truthy (walletAddress (current pg)) = false ->
  let pg' := steps env initialState walletEffect
               [Fire handleConnectWallet; Settle 0; Settle 0] pg in
  verificationCount (current pg') = verificationCount (current pg)
  /\ pending pg' = []
  /\ match env _ connectWallet (outside pg) with
     | (Resolved (Some (String a s)), w') =>
         let address := String a s in
         let ask := checkUserSubscription address employer in
         walletAddress (current pg') = Some address
         /\ issued pg' = (issued pg ++ [called connectWallet; called ask])%list
         /\ hasAccess (current pg')
            = match fst (env _ ask w') with
              | Resolved sub => sub_hasAccess sub
              | Rejected _ => hasAccess (current pg)
              end
         /\ checkingAccess (current pg')
            = match fst (env _ ask w') with
              | Resolved _ => false
              | Rejected _ => true
              end
     | (_, _) =>
         current pg' = current pg
         /\ issued pg' = (issued pg ++ [called connectWallet])%list
     end.
Proof.
  intros Hp Hw. destruct pg as [st w ts log]. cbn in Hp, Hw. subst ts.
  cbv zeta. unfold steps. cbn [fold_left current outside issued pending].
  rewrite fire_quiet by reflexivity.
  unfold handleConnectWallet. cbn [bind await advance current outside pending issued app].
  rewrite settle_only.
  destruct (env _ connectWallet w) as [[[[|a s]|]|message] w1];
    cbn [fst snd JS.truthy JS.not String.eqb negb advance bind set];
    try (rewrite rerender_same by reflexivity; rewrite settle_none by reflexivity;
         cbn; auto; fail).
  assert (Hd : sameAddress (walletAddress st) (Some (String a s)) = false).
  { destruct (walletAddress st) as [[|b u]|]; [reflexivity|discriminate|reflexivity]. }
  rewrite rerender_changed by exact Hd.
  unfold checkAccess.
  cbn [walletAddress setWalletAddress JS.not String.eqb bind set await advance
         current outside pending issued app].
  rewrite settle_only.
  destruct (env _ (checkUserSubscription (String a s) employer) w1)
    as [[sub|message] w2]; cbn [advance bind set current fst snd];
    rewrite rerender_same by reflexivity; cbn; rewrite <- ?app_assoc; cbn; auto 6.
Qed.

End Lookups.

End PortalMore.

(* ================================================================== *)
(** ** Shortened addresses *)

Module AddressView.

Import PortalView.

Lemma length_append (a b : string) :
  String.length (a ++ b) = (String.length a + String.length b)%nat.
Proof. induction a as [|c a IH]; cbn; [reflexivity | rewrite IH; reflexivity]. Qed.








End AddressView.

(* ================================================================== *)
(** ** More on the institution dashboard: one submission *)

Module DashboardMore.

Import InstitutionDashboard DashboardSession DashboardPage.

Lemma or_else_nonempty (message fallback : string) :
  fallback <> "" -> JS.or_else (Some message) fallback <> "".
Proof.
  intros H. unfold JS.or_else, JS.truthy.
  destruct (message =? "")%string eqn:E; cbn; [exact H|].
  apply String.eqb_neq. exact E.
Qed.

(** Splits a goal about [invoke env handleSubmit st w] into the ways
    a submission can go, one per answer of each helper. *)
Ltac every_submission env st w :=
  unfold invoke, handleSubmit, loadStats, try_catch_finally; cbn;
  destruct (document (formData st)) as [doc|] eqn:Hdoc; cbn;
  [ destruct (matchesAddress (studentAddress (formData st))) eqn:Haddr; cbn;
    [ destruct (env _ (uploadToIPFS doc) w) as [[h|m1] w1] eqn:Hup; cbn;
      [ destruct (env _ (issueCredential (studentAddress (formData st)) h
                           (degreeLabel (formData st))
                           (institutionName (formData st))) w1)
          as [[res|m2] w2] eqn:Hmint; cbn;
        [ destruct (walletAddress st) as [wallet|] eqn:Hwal; cbn;
          [ destruct (JS.not wallet) eqn:Hnw; cbn;
            [ | destruct (env _ (saveCredential (ir_tokenId res)
                                   (studentAddress (formData st))
                                   (institutionName (formData st)) wallet
                                   (degreeLabel (formData st)) h) w2)
                  as [[[]|m3] w3] eqn:Hsave; cbn;
                [ destruct (env _ (getInstitutionStats wallet) w3)
                    as [[sts|m4] w4] eqn:Hstats; cbn | ] ]
          | ]
        | ]
      | ]
    | ]
  | ].

Section Submissions.

Variable W : Type.
Variable env : Env W.

(** X6.  Every submission ends one of two ways, whatever the helpers
    answer: either a success is shown, with no error and the form
    emptied, or an error with a text is shown, with no success and the
    form kept as typed.  Either way the loading flag is off again. *)
Theorem submission_ends_one_way (st : State) (w : W) :
  let o := invoke env handleSubmit st w in
  loading (state o) = false
  /\ ((exists res, success (state o) = Some res
                   /\ error (state o) = None
                   /\ formData (state o) = emptyForm)
      \/ (success (state o) = None
          /\ formData (state o) = formData st
          /\ exists message, error (state o) = Some message /\ message <> "")).
Proof.
  cbv zeta. every_submission env st w;
    (split; [reflexivity|]);
    first
      [ left; eexists; repeat split; reflexivity
      | right; split; [reflexivity|]; split; [reflexivity|];
        eexists; split; [reflexivity|];
        first [apply or_else_nonempty; discriminate | discriminate] ].
Qed.

(** X7.  The index is only ever written after the ledger has minted:
    a submission writes at most one row, and when it does, the upload
    answered with the hash of the row, the mint sent with that hash
    answered, the token of the row is the one the ledger returned,
    and the issuer of the row is the connected wallet. *)
Theorem index_written_only_after_mint (st : State) (w : W) :
  let f := formData st in
  let o := invoke env handleSubmit st w in
  indexWrites (calls o) = []
  \/ exists doc h res wallet,
       document f = Some doc
       /\ walletAddress st = Some wallet
       /\ fst (env _ (uploadToIPFS doc) w) = Resolved h
       /\ fst (env _ (issueCredential (studentAddress f) h (degreeLabel f)
                        (institutionName f))
                 (snd (env _ (uploadToIPFS doc) w))) = Resolved res
       /\ mintsSent (calls o)
          = [(studentAddress f, h, degreeLabel f, institutionName f)]
       /\ indexWrites (calls o)
          = [(ir_tokenId res, studentAddress f, institutionName f, wallet,
              degreeLabel f, h)].
Proof.
  cbv zeta. every_submission env st w;
    try (left; reflexivity);
    right; exists doc, h, res, wallet;
    rewrite ?Hup; cbn; rewrite ?Hmint; cbn; auto 8.
Qed.

Lemma success_empties_form (st : State) (w : W) :
  success (state (invoke env handleSubmit st w)) <> None ->
  formData (state (invoke env handleSubmit st w)) = emptyForm.
Proof.
  every_submission env st w; intros H; try reflexivity;
    exfalso; apply H; reflexivity.
Qed.

Lemma empty_form_refused (st : State) (w : W) :
  formData st = emptyForm ->
  let o := invoke env handleSubmit st w in
  calls o = [] /\ world o = w
  /\ error (state o) = Some uploadDocument /\ success (state o) = None.
Proof.
  intros H. unfold invoke, handleSubmit, try_catch_finally. rewrite H.
  cbn. auto.
Qed.

(** X8.  A submission that succeeded leaves the form empty, so
    submitting again without filling it in is refused for the missing
    document before any helper is called: nothing is uploaded or
    minted a second time, and the success shown before is replaced by
    the error. *)
Theorem resubmission_without_refilling_refused (st : State) (w : W) :
  success (state (invoke env handleSubmit st w)) <> None ->
  let o1 := invoke env handleSubmit st w in
  let o2 := invoke env handleSubmit (state o1) (world o1) in
  calls o2 = []
  /\ world o2 = world o1
  /\ error (state o2) = Some uploadDocument
  /\ success (state o2) = None.
Proof.
  intros H. cbv zeta. apply empty_form_refused.
  apply success_empties_form. exact H.
Qed.

(** X9.  When the upload, the mint and the index write all succeed
    and the refresh of the statistics then throws, the submission is
    shown as failed: the message of that exception is the error, no
    success is shown and the form is kept as typed, although the
    credential is minted and indexed. *)
Theorem stats_failure_reported_as_issue_failure
    (st : State) (w w1 w2 w3 w4 : W) (doc : File)
    (wallet h message : string) (res : IssueResult) :
  let f := formData st in
  let mint := issueCredential (studentAddress f) h (degreeLabel f)
                (institutionName f) in
  let save := saveCredential (ir_tokenId res) (studentAddress f)
                (institutionName f) wallet (degreeLabel f) h in
  document f = Some doc ->
  matchesAddress (studentAddress f) = true ->
  walletAddress st = Some wallet -> wallet <> "" ->
  env _ (uploadToIPFS doc) w = (Resolved h, w1) ->
  env _ mint w1 = (Resolved res, w2) ->
  env _ save w2 = (Resolved tt, w3) ->
  env _ (getInstitutionStats wallet) w3 = (Rejected message, w4) ->
  let o := invoke env handleSubmit st w in
  calls o = [called (uploadToIPFS doc); called mint; called save;
             called (getInstitutionStats wallet)]
  /\ success (state o) = None
  /\ error (state o) = Some (JS.or_else (Some message) issueFailed)
  /\ formData (state o) = formData st
  /\ stats (state o) = stats st.
Proof.
  intros f mint save Hd Ha Hw Hne Hu Hm Hs Hg.
  unfold invoke, handleSubmit, loadStats, try_catch_finally.
  fold f. rewrite Hd, Ha. cbn. rewrite Hu. cbn.
  fold mint. rewrite Hm. cbn. rewrite Hw.
  apply String.eqb_neq in Hne. unfold JS.not. rewrite Hne. cbn.
  fold f save. rewrite Hs. cbn. rewrite Hg. cbn.
  auto 6.
Qed.

End Submissions.

(** X10.  The address test takes the field as typed and accepts
    exactly 42 code units: an accepted address stops being accepted
    as soon as anything - a space, a line break, one more digit - is
    put before or after it. *)
Theorem matchesAddress_exact (s pad : string) :
  matchesAddress s = true -> pad <> "" ->
  String.length s = 42%nat
  /\ matchesAddress (s ++ pad) = false
  /\ matchesAddress (pad ++ s) = false.
Proof.
  assert (L : forall x, matchesAddress x = true -> String.length x = 42%nat).
  { intros x. unfold matchesAddress.
    destruct x as [|a [|b digits]]; intros H; try discriminate H.
    - destruct a as [[] [] [] [] [] [] [] []]; discriminate H.
    - destruct a as [[] [] [] [] [] [] [] []]; try discriminate H.
      destruct b as [[] [] [] [] [] [] [] []]; try discriminate H.
      apply andb_prop in H. destruct H as [H _].
      apply Nat.eqb_eq in H. cbn. rewrite H. reflexivity. }
  intros Hs Hp. pose proof (L s Hs) as Hl. split; [exact Hl|].
  assert (Hn : String.length pad <> 0%nat) by (destruct pad; [congruence|discriminate]).
  split.
  - destruct (matchesAddress (s ++ pad)) eqn:E; [|reflexivity].
    apply L in E. rewrite AddressView.length_append in E. lia.
  - destruct (matchesAddress (pad ++ s)) eqn:E; [|reflexivity].
    apply L in E. rewrite AddressView.length_append in E. lia.
Qed.

End DashboardMore.

(* ================================================================== *)
(** ** The dashboard as a page: who gets to see the form *)

Module DashboardPages.

Import InstitutionDashboard DashboardPage.

(** Settles a [Keeps] goal over an unfolded handler of the dashboard. *)
Ltac calm :=
  repeat first
    [ assumption
    | progress cbn
    | match goal with
      | |- Keeps _ ?p =>
          match p with
          | context [if ?b then _ else _] => destruct b eqn:?
          | context [match ?x with _ => _ end] => is_var x; destruct x
          end
      | |- gentle _ _ =>
          solve [unfold gentle, covered, connected; cbn; split; intros; auto]
      | |- walleted _ _ =>
          solve [unfold walleted, covered, connected; cbn; intros; auto]
      | |- _ /\ _ => split
      | |- forall _, _ => intro
      | |- True => exact I
      end ].

Lemma handleSubmit_gentle c : Keeps gentle (handleSubmit c).
Proof.
  unfold handleSubmit, loadStats, try_catch_finally.
  destruct (document (formData c)); [|calm].
  destruct (walletAddress c); calm.
Qed.

Lemma handleFileChange_gentle file c : Keeps gentle (handleFileChange file c).
Proof. unfold handleFileChange. calm. Qed.

Lemma initWallet_gentle c : Keeps gentle (initWallet c).
Proof. unfold initWallet. calm. Qed.

Lemma refreshStats_gentle c : Keeps gentle (refreshStats c).
Proof.
  unfold refreshStats, loadStats. destruct (walletAddress c); calm.
Qed.

Lemma checkAccess_fine c : Fine c (checkAccess c).
Proof.
  unfold Fine, checkAccess, connected.
  destruct (walletAddress c) as [address|]; [|left; exact I].
  unfold JS.truthy, JS.not.
  destruct (address =? "")%string; [left; exact I|].
  right. split; [reflexivity|]. calm.
Qed.

Lemma handler_fine e c : Fine c (handler e c).
Proof.
  destruct e; cbn [handler];
    try (left; first [ apply handleSubmit_gentle
                     | apply handleFileChange_gentle
                     | calm ]; fail).
  destruct (checkAccess_fine c) as [H | [Hc H]].
  - left. cbn. split; [|exact H]. calm.
  - right. split; [exact Hc|]. cbn. split; [|exact H]. calm.
Qed.

Lemma walletEffect_fine before after c :
  Forall (fun h => Fine c (h c)) (walletEffect before after).
Proof.
  unfold walletEffect. destruct (VerificationPortal.sameAddress _ _);
    [constructor|].
  constructor; [|constructor; [|constructor]].
  - left. destruct (JS.truthy (walletAddress c));
      [apply refreshStats_gentle | exact I].
  - destruct (JS.truthy (walletAddress c));
      [apply checkAccess_fine | left; exact I].
Qed.

Lemma mountEffect_fine c : Forall (fun h => Fine c (h c)) mountEffect.
Proof. constructor; [left; apply initWallet_gentle | constructor]. Qed.

Section Inv.

Variable W : Type.
Variable env : Env W.

Lemma Fine_later s s' p :
  (connected s -> connected s') -> Fine s p -> Fine s' p.
Proof. intros H [G | [C K]]; [left; exact G | right; auto]. Qed.

Lemma TaskFine_later s s' :
  (connected s -> connected s') ->
  forall ts, Forall (TaskFine s) ts -> Forall (TaskFine s') ts.
Proof.
  intros H ts. apply Forall_impl. intros [X e k] Ht r.
  apply (Fine_later s s'); [exact H | apply Ht].
Qed.

Lemma advance_gentle p : forall pg : Page State W,
  Keeps gentle p -> Steady pg ->
  Steady (advance p pg)
  /\ (connected (current pg) -> connected (current (advance p pg))).
Proof.
  induction p as [u | f k IH | X e k IH]; intros pg HK [HC HP]; cbn.
  - split; [split; assumption | auto].
  - destruct HK as [Hf Hk]. destruct (Hf (current pg)) as [Hcon Hcov].
    destruct (IH {| current := f (current pg); outside := outside pg;
                    pending := pending pg; issued := issued pg |} Hk)
      as [HS Hmono].
    + split; cbn; [auto|]. apply (TaskFine_later (current pg)); assumption.
    + split; [exact HS | cbn in Hmono; auto].
  - split; [|auto]. split; cbn; [assumption|].
    apply Forall_app. split; [assumption|].
    constructor; [|constructor]. intros r. left. apply HK.
Qed.

Lemma advance_walleted p : forall pg : Page State W,
  connected (current pg) -> Keeps walleted p -> Steady pg ->
  Steady (advance p pg) /\ connected (current (advance p pg)).
Proof.
  induction p as [u | f k IH | X e k IH]; intros pg Hc HK [HC HP]; cbn.
  - split; [split; assumption | assumption].
  - destruct HK as [Hf Hk]. destruct (Hf (current pg) Hc) as [Hcon Hcov].
    apply IH; cbn; [assumption | assumption |].
    split; cbn; [assumption|].
    apply (TaskFine_later (current pg)); auto.
  - split; [|assumption]. split; cbn; [assumption|].
    apply Forall_app. split; [assumption|].
    constructor; [|constructor]. intros r. right. split; [assumption | apply HK].
Qed.

Lemma advance_fine s p (pg : Page State W) :
  Fine s p -> (connected s -> connected (current pg)) -> Steady pg ->
  Steady (advance p pg)
  /\ (connected (current pg) -> connected (current (advance p pg))).
Proof.
  intros [G | [C K]] Hs Hpg.
  - apply advance_gentle; assumption.
  - destruct (advance_walleted p pg (Hs C) K Hpg). auto.
Qed.

Lemma start_fine hs closure : forall pg : Page State W,
  Forall (fun h => Fine closure (h closure)) hs ->
  (connected closure -> connected (current pg)) ->
  Steady pg -> Steady (start hs closure pg).
Proof.
  induction hs as [|h hs IH]; intros pg Hhs Hc Hpg; cbn; [assumption|].
  inversion Hhs; subst.
  destruct (advance_fine closure (h closure) pg) as [HS Hmono]; try assumption.
  apply IH; auto.
Qed.

Lemma rerender_steady before (pg : Page State W) :
  Steady pg -> Steady (rerender walletEffect before pg).
Proof.
  intros H. apply start_fine; [apply walletEffect_fine | auto | exact H].
Qed.

Lemma Forall_remove (P : Task State -> Prop) i : forall ts,
  Forall P ts -> Forall P (remove i ts).
Proof.
  induction i as [|i IH]; intros [|t ts] H; cbn; try assumption.
  - inversion H; assumption.
  - inversion H; subst. constructor; [assumption | apply IH; assumption].
Qed.

Lemma step_steady input (pg : Page State W) :
  Steady pg -> Steady (step env initialState walletEffect (action input) pg).
Proof.
  intros [HC HP]. destruct input as [|[e|i]]; cbn [action step].
  - apply rerender_steady. apply start_fine;
      [apply mountEffect_fine | auto |].
    split; cbn; [left; reflexivity | constructor].
  - apply rerender_steady.
    apply (advance_fine (current pg)); [apply handler_fine | auto | split; assumption].
  - destruct (nth_error (pending pg) i) as [[X e k]|] eqn:Hn; [|split; assumption].
    destruct (env X e (outside pg)) as [r w'].
    apply rerender_steady.
    apply (advance_fine (current pg)); cbn; [|auto|].
    + apply nth_error_In in Hn. rewrite Forall_forall in HP.
      apply (HP _ Hn).
    + split; cbn; [assumption | apply Forall_remove; assumption].
Qed.

Lemma play_steady inputs : forall pg : Page State W,
  Steady pg ->
  Steady (steps env initialState walletEffect (map action inputs) pg).
Proof.
  induction inputs as [|i inputs IH]; intros pg H; [exact H|].
  cbn. apply IH. apply step_steady. exact H.
Qed.

(** X11.  Whatever the institution does on the dashboard and whatever
    the helpers answer, in whatever order: the issuance form is only
    ever on screen when a wallet is connected and the last answer of
    the subscription helper stored in [hasAccess] is an active one.
    Without that the page shows the spinner or the paywall - the
    spinner, for good, when no wallet is connected. *)
Theorem form_shown_only_with_access (inputs : list Input) (w : W) :
  let s := current (play env inputs w) in
  match view s with
  | Form => JS.truthy (walletAddress s) = true /\ hasAccess s = true
  | Paywall => JS.truthy (walletAddress s) = true /\ hasAccess s = false
  | Spinner => checkingAccess s = true
  end
  /\ (JS.truthy (walletAddress s) = true \/ view s = Spinner).
Proof.
  cbv zeta.
  destruct (play_steady inputs (fresh initialState w)) as [HC _].
  { split; cbn; [left; reflexivity | constructor]. }
  fold (play env inputs w) in HC. unfold view.
  destruct HC as [HC | HC]; unfold connected in *.
  - rewrite HC. auto.
  - rewrite HC. destruct (checkingAccess _); [auto|].
    destruct (hasAccess _); cbn; auto.
Qed.

(** X12.  The access check of the dashboard decides what is on
    screen: for a connected wallet it asks the subscription helper
    once, as an institution, and then shows the form when the answer
    is an active access and the paywall when it is not; when the
    helper throws, nothing is caught and the spinner stays. *)
Theorem access_check_decides_view (a : ascii) (s : string) (st : State) (w : W) :
  let address := String a s in
  let ask := checkUserSubscription address institution in
  let o := invoke env checkAccess (setWalletAddress (Some address) st) w in
  calls o = [called ask]
  /\ view (state o)
     = match fst (env _ ask w) with
       | Resolved sub => if sub_hasAccess sub then Form else Paywall
       | Rejected _ => Spinner
       end.
Proof.
  cbv zeta. unfold invoke, checkAccess. cbn.
  destruct (env _ (checkUserSubscription (String a s) institution) w)
    as [[[[]]|message] w']; cbn; auto.
Qed.

End Inv.

End DashboardPages.

(* ================================================================== *)
(** ** The student wallet: history after a load *)

Module WalletTheory.

Import StudentWallet.

(** X14.  The History button opens the trail of an index row that
    carries the token of the credential, and does nothing at all when
    the index rows on the page have no row for that token. *)
Theorem history_needs_index_row (credential : Credential) (st : State) :
  (viewHistory credential st = st
   /\ forall row, In row (dbCredentials st) ->
                  rec_token_id row <> cr_tokenId credential)
  \/ (exists row,
        In row (dbCredentials st)
        /\ rec_token_id row = cr_tokenId credential
        /\ viewHistory credential st
           = setViewAuditCredential (Some (rec_id row)) st).
Proof.
  unfold viewHistory.
  destruct (find _ (dbCredentials st)) as [row|] eqn:E.
  - right. apply find_some in E. destruct E as [Hin Heq].
    apply String.eqb_eq in Heq. exists row. auto.
  - left. split; [reflexivity|]. intros row Hin.
    apply (find_none _ _ E) in Hin. apply String.eqb_neq in Hin. exact Hin.
Qed.

(** X15.  A first load whose ledger read answers and whose index read
    throws shows the credentials of the ledger all the same, but
    leaves the page without index rows: the History button of every
    credential then does nothing. *)
Theorem history_dead_when_index_read_fails
    (getStudentCredentials : string -> Result (list Credential))
    (getCredentialsByStudent : string -> Result (list CredentialRecord))
    (address message : string) (creds : list Credential) (st : State) :
  getStudentCredentials address = Resolved creds ->
  getCredentialsByStudent address = Rejected message ->
  dbCredentials st = [] ->
  let st' := loadCredentials getStudentCredentials getCredentialsByStudent
               address st in
  credentials st' = creds
  /\ loading st' = false
  /\ forall credential, viewHistory credential st' = st'.
Proof.
  intros Hl Hi Hd. cbv zeta. unfold loadCredentials. rewrite Hl, Hi.
  cbn. repeat split. intros credential. unfold viewHistory. cbn.
  rewrite Hd. reflexivity.
Qed.

End WalletTheory.

(* ================================================================== *)
(** ** The added properties at work in the demo world *)

Module Examples.

Import Demo MoreDemo Scenario.

(** E1 looks up five tokens in a row, the last one unknown. *)
Lemma free_left_never_negative_witness :
  Forall (fun p => 0 <= PortalView.freeLeft (state (snd p)))
         (PortalSession.lookups env ["1"; "2"; "3"; "4"; "9"] identified
            unsubscribed).
Proof.
  apply (PortalMore.free_left_never_negative World env
           ["1"; "2"; "3"; "4"; "9"] identified unsubscribed).
  unfold PortalView.freeLeft. cbn. lia.
Defined.

(** E1 looks up token 9, which the ledger does not know. *)
Lemma failed_lookup_is_free_witness :
  let o := invoke env (VerificationPortal.handleVerify (Some "9"))
             identified unsubscribed in
  VerificationPortal.verificationCount (state o) = 0
  /\ VerificationPortal.credential (state o) = None
  /\ VerificationPortal.loading (state o) = false
  /\ VerificationPortal.searched (state o) = true
  /\ VerificationPortal.error (state o) = Some VerificationPortal.notFound.
Proof.
  apply (PortalMore.failed_lookup_is_free World env (Some "9") identified
           unsubscribed).
  - reflexivity.
  - intros c H. discriminate H.
Defined.

(** E1, out of free lookups with token 1 on screen, asks for token 2. *)
Lemma refused_lookup_keeps_display_witness :
  let o := invoke env (VerificationPortal.handleVerify (Some "2"))
             usedUp unsubscribed in
  calls o = []
  /\ world o = unsubscribed
  /\ VerificationPortal.credential (state o) = Some (diploma "1" false)
  /\ VerificationPortal.searched (state o) = false
  /\ VerificationPortal.loading (state o) = false
  /\ VerificationPortal.verificationCount (state o) = 3
  /\ VerificationPortal.error (state o) = Some VerificationPortal.limitReached.
Proof.
  apply (PortalMore.refused_lookup_keeps_display World env (Some "2") usedUp
           unsubscribed).
  discriminate.
Defined.

(** E1 presses Connect Wallet on a fresh page. *)
Lemma connect_then_access_check_witness :
  let pg := steps env VerificationPortal.initialState
              VerificationPortal.walletEffect
              [Fire VerificationPortal.handleConnectWallet; Settle 0; Settle 0]
              (fresh VerificationPortal.initialState unsubscribed) in
  VerificationPortal.verificationCount (current pg) = 0
  /\ pending pg = []
  /\ VerificationPortal.walletAddress (current pg) = Some E1
  /\ issued pg = [called connectWallet;
                  called (checkUserSubscription E1 employer)]
  /\ VerificationPortal.hasAccess (current pg) = false
  /\ VerificationPortal.checkingAccess (current pg) = false.
Proof.
  apply (PortalMore.connect_then_access_check World env
           (fresh VerificationPortal.initialState unsubscribed));
    reflexivity.
Defined.

(** E1 presses Enter five times before the first answer. *)
Lemma overlapping_lookups_all_counted_witness :
  let pg := steps env VerificationPortal.initialState
              VerificationPortal.walletEffect
              (map PortalSession.moveAction (PortalSession.enterPresses 5))
              {| current := VerificationPortal.setTokenId "1" identified;
                 outside := unsubscribed; pending := []; issued := [] |} in
  VerificationPortal.verificationCount (current pg) = 5
  /\ count isVerify (issued pg) = 5%nat
  /\ pending pg = [].
Proof.
  apply (PortalPages.overlapping_lookups_all_counted World env "1" 5
           identified unsubscribed).
  - reflexivity.
  - reflexivity.
  - discriminate.
  - intros w. eexists. reflexivity.
Defined.

Import InstitutionDashboard.

(** The BSc of S1 is issued, and Submit is pressed again at once. *)
Lemma resubmission_without_refilling_refused_witness :
  let o1 := invoke env handleSubmit (setFormData (bsc (Some scan)) dashboard)
              indexFine in
  let o2 := invoke env handleSubmit (state o1) (world o1) in
  calls o2 = []
  /\ world o2 = world o1
  /\ error (state o2) = Some uploadDocument
  /\ success (state o2) = None.
Proof.
  apply (DashboardMore.resubmission_without_refilling_refused World env
           (setFormData (bsc (Some scan)) dashboard) indexFine).
  cbn. discriminate.
Defined.

(** The BSc of S1 is issued while the statistics helper is down. *)
Lemma stats_failure_reported_as_issue_failure_witness :
  let st := setFormData (bsc (Some scan)) dashboard in
  let o := invoke statsDown handleSubmit st indexFine in
  calls o
    = [ called (uploadToIPFS scan);
        called (issueCredential S1 "Qm%PDF" "BSc (2024)" "I1");
        called (saveCredential "1" S1 "I1" I1 "BSc (2024)" "Qm%PDF");
        called (getInstitutionStats I1) ]
  /\ success (state o) = None
  /\ error (state o) = Some "stats unavailable"
  /\ formData (state o) = bsc (Some scan)
  /\ stats (state o) = stats dashboard.
Proof.
  apply (DashboardMore.stats_failure_reported_as_issue_failure World statsDown
           (setFormData (bsc (Some scan)) dashboard)
           indexFine indexFine (afterMint indexFine) (afterMint indexFine)
           (afterMint indexFine) scan I1 "Qm%PDF" "stats unavailable"
           {| ir_tokenId := "1"; ir_txHash := "0xfeed" |});
    first [reflexivity | discriminate].
Defined.

(** The address of S1, and the same with a space after it. *)
Lemma matchesAddress_exact_witness :
  String.length S1 = 42%nat
  /\ matchesAddress (S1 ++ " ") = false
  /\ matchesAddress (" " ++ S1) = false.
Proof.
  apply (DashboardMore.matchesAddress_exact S1 " ");
    [reflexivity | discriminate].
Defined.

(** The wallet of S1 loads while the index is down. *)
Lemma history_dead_when_index_read_fails_witness :
  let st' := StudentWallet.loadCredentials ledgerOnly indexBroken S1
               StudentWallet.initialState in
  StudentWallet.credentials st' = [diploma "1" false; diploma "2" true]
  /\ StudentWallet.loading st' = false
  /\ forall credential, StudentWallet.viewHistory credential st' = st'.
Proof.
  apply (WalletTheory.history_dead_when_index_read_fails ledgerOnly
           indexBroken S1 "index unavailable"
           [diploma "1" false; diploma "2" true] StudentWallet.initialState);
    reflexivity.
Defined.

End Examples.
